(** * Data-set indexer of the clouds image collection (dataset.py)

    A shallow embedding of [dataset.py]: the one-hot encoder, the [DataSet]
    constructor that scans a directory tree, the path and label accessors,
    the export to another directory layout and the cache wrapper.

    Conventions of the embedding.
    - Python [str] is [string]; [str.lower] is modelled on the ASCII letters
      (file and directory names are taken to be ASCII).
    - Python [int] is [Z]; list indexing follows Python (negative indices
      count from the end, an index out of range raises [IndexError]).
    - A call that raises is [None] in the pure part of the model; the export,
      which changes the disk before it may fail, runs in a state and error
      monad of its own.
    - The entries of [np.eye(n, dtype=float)] are the two doubles 0.0 and
      1.0; they are represented exactly by the rationals [0] and [1].
    - The operating system ([os.listdir], [os.path.isdir], [os.path.exists],
      [os.path.abspath]) is a record of functions, so that every theorem
      holds for whatever the file system answers; [os.path.join] is the
      POSIX one. *)

From Stdlib Require Import Ascii String QArith.
From stdpp Require Import gmap strings list fin_maps sorting.

Local Open Scope Z_scope.

(** ** Python strings *)

Module Str.

Definition ascii_lower (a : ascii) : ascii :=
  let n := nat_of_ascii a in
  if ((65 <=? n) && (n <=? 90))%nat then ascii_of_nat (n + 32) else a.

(** [s.lower()] *)
Fixpoint lower (s : string) : string :=
  match s with
  | EmptyString => EmptyString
  | String a r => String (ascii_lower a) (lower r)
  end.

(** [s.startswith(pre)] *)
Fixpoint startswith (s pre : string) : bool :=
  match pre, s with
  | EmptyString, _ => true
  | String _ _, EmptyString => false
  | String b pre', String a s' => Ascii.eqb a b && startswith s' pre'
  end.

(** [s.endswith(suf)]: [s] is [suf], or the tail of [s] ends with [suf]. *)
Fixpoint endswith (s suf : string) : bool :=
  String.eqb s suf ||
  match s with
  | EmptyString => false
  | String _ r => endswith r suf
  end.

(** [s.endswith(t)] for a tuple [t]: some member of [t] is a suffix. *)
Definition endswith_any (s : string) (t : list string) : bool :=
  existsb (endswith s) t.

(** [(c for c in s)]: the characters of [s], each a string of length one. *)
Fixpoint chars (s : string) : list string :=
  match s with
  | EmptyString => []
  | String a r => String a EmptyString :: chars r
  end.

End Str.

(** ** Python list indexing *)

(** [l[i]]: a negative [i] counts from the end; out of range raises. *)
Definition py_getitem {A} (l : list A) (i : Z) : option A :=
  let n := Z.of_nat (length l) in
  if decide (0 ≤ i) then l !! Z.to_nat i
  else if decide (- n ≤ i) then l !! Z.to_nat (n + i)
  else None.

(** ** numpy *)

Module Np.

(** One row of [np.eye(n)]. *)
Definition eye_row (n i : nat) : list Q :=
  (λ j, if decide (i = j) then 1%Q else 0%Q) <$> seq 0 n.

(** [np.eye(n, dtype=float)] for [0 <= n]. *)
Definition eye (n : nat) : list (list Q) :=
  (λ i, eye_row n i) <$> seq 0 n.

(** [np.max(l)]: raises on an empty sequence. *)
Definition max (l : list Z) : option Z :=
  match l with
  | [] => None
  | x :: r => Some (foldl Z.max x r)
  end.

(** The scan of [np.argmax]: the first index of the largest entry. *)
Fixpoint argmax_from (best : Q) (besti i : nat) (l : list Q) : nat :=
  match l with
  | [] => besti
  | x :: r =>
      if Qle_bool x best then argmax_from best besti (S i) r
      else argmax_from x i (S i) r
  end.

(** [np.argmax(l)]: raises on an empty sequence. *)
Definition argmax (l : list Q) : option nat :=
  match l with
  | [] => None
  | x :: r => Some (argmax_from x 0 1 r)
  end.

End Np.

(** ** [one_hot_encoded] *)

(** The value of [num_classes] after the test [if num_classes is None].
    The sum is taken in [Z]; numpy takes it in [int64], which is the same
    number as long as the largest class number is below [2^63 - 1]. *)
Definition default_num_classes (class_numbers : list Z)
    (num_classes : option Z) : option Z :=
  match num_classes with
  | Some n => Some n
  | None => (λ m, m + 1) <$> Np.max class_numbers
  end.

(** [np.eye(num_classes, dtype=float)[class_numbers]]: [np.eye] refuses a
    negative dimension, and every index is checked against the rows. *)
Definition one_hot_encoded (class_numbers : list Z)
    (num_classes : option Z) : option (list (list Q)) :=
  n ← default_num_classes class_numbers num_classes;
  if decide (n < 0) then None
  else mapM (py_getitem (Np.eye (Z.to_nat n))) class_numbers.

(** ** [os.path] and the file system *)

Module OsPath.

(** One round of the loop of [posixpath.join]. *)
Definition join2 (path b : string) : string :=
  if Str.startswith b "/" then b
  else if String.eqb path "" || Str.endswith path "/" then path +:+ b
  else path +:+ "/" +:+ b.

(** [os.path.join(a, *p)] *)
Definition join (a : string) (p : list string) : string := foldl join2 a p.

End OsPath.

(** What the operating system answers. [listdir] is [None] when
    [os.listdir] raises (no such directory, not a directory, no
    permission). *)
Record OS := {
  abspath : string → string;
  listdir : string → option (list string);
  isdir : string → bool;
  path_exists : string → bool
}.

(** ** The class [DataSet] *)

(** The argument [exts]: a string or a tuple of strings. *)
Inductive exts_arg :=
  | ExtStr (s : string)
  | ExtTuple (t : list string).

(** The default value of [exts]. *)
Definition default_exts : exts_arg := ExtStr ".jpg".

(** [tuple(ext.lower() for ext in exts)]: iterating over a string yields
    its characters, over a tuple its members. *)
Definition lower_exts (exts : exts_arg) : list string :=
  match exts with
  | ExtStr s => Str.lower <$> Str.chars s
  | ExtTuple t => Str.lower <$> t
  end.

Record DataSet := {
  in_dir : string;
  exts : list string;
  class_names : list string;
  filenames : list string;
  filenames_test : list string;
  class_numbers : list Z;
  class_numbers_test : list Z;
  num_classes : Z
}.

(** [DataSet._get_filenames] *)
Definition _get_filenames (os : OS) (self : DataSet) (dir : string)
    : option (list string) :=
  if path_exists os dir then
    names ← listdir os dir;
    Some (List.filter
            (λ filename, Str.endswith_any (Str.lower filename) (exts self))
            names)
  else Some [].

(** The body of the loop of [DataSet.__init__] for one entry [name] of the
    root directory. *)
Definition init_body (os : OS) (self : DataSet) (name : string)
    : option DataSet :=
  let current_dir := OsPath.join (in_dir self) [name] in
  if isdir os current_dir then
    fnames ← _get_filenames os self current_dir;
    let class_number := num_classes self in
    fnames_test ← _get_filenames os self (OsPath.join current_dir ["test"]);
    Some {| in_dir := in_dir self;
            exts := exts self;
            class_names := class_names self ++ [name];
            filenames := filenames self ++ fnames;
            filenames_test := filenames_test self ++ fnames_test;
            class_numbers :=
              class_numbers self ++ replicate (length fnames) class_number;
            class_numbers_test :=
              class_numbers_test self
                ++ replicate (length fnames_test) class_number;
            num_classes := num_classes self + 1 |}
  else Some self.

(** [for name in os.listdir(in_dir): ...] *)
Fixpoint init_loop (os : OS) (self : DataSet) (names : list string)
    : option DataSet :=
  match names with
  | [] => Some self
  | name :: rest => self' ← init_body os self name; init_loop os self' rest
  end.

(** The object before the loop of [DataSet.__init__]. *)
Definition init_fields (os : OS) (in_dir0 : string) (exts0 : exts_arg)
    : DataSet :=
  {| in_dir := abspath os in_dir0;
     exts := lower_exts exts0;
     class_names := [];
     filenames := [];
     filenames_test := [];
     class_numbers := [];
     class_numbers_test := [];
     num_classes := 0 |}.

(** [DataSet.__init__(in_dir, exts)]; [None] when a listing raises. *)
Definition __init__ (os : OS) (in_dir0 : string) (exts0 : exts_arg)
    : option DataSet :=
  let self := init_fields os in_dir0 exts0 in
  names ← listdir os (in_dir self);
  init_loop os self names.

(** [DataSet.get_paths]: a generator; each element is computed when it is
    asked for, and is [None] when computing it raises. *)
Definition get_paths (self : DataSet) (test : bool) : list (option string) :=
  let '(fnames, cnumbers, test_dir) :=
    if test then (filenames_test self, class_numbers_test self, "test/")
    else (filenames self, class_numbers self, "") in
  (λ '(filename, cls),
     class_name ← py_getitem (class_names self) cls;
     Some (OsPath.join (in_dir self) [class_name; test_dir; filename]))
    <$> zip fnames cnumbers.

(** [list(gen)] *)
Definition py_list {A} (gen : list (option A)) : option (list A) :=
  mapM id gen.

(** [DataSet.get_training_set] *)
Definition get_training_set (self : DataSet)
    : option (list string * list Z * list (list Q)) :=
  paths ← py_list (get_paths self false);
  one_hot ← one_hot_encoded (class_numbers self) (Some (num_classes self));
  Some (paths, class_numbers self, one_hot).

(** [DataSet.get_test_set] *)
Definition get_test_set (self : DataSet)
    : option (list string * list Z * list (list Q)) :=
  paths ← py_list (get_paths self true);
  one_hot ←
    one_hot_encoded (class_numbers_test self) (Some (num_classes self));
  Some (paths, class_numbers_test self, one_hot).

(** ** Export: [DataSet.copy_files] *)

Module Exporter.

(** What the export does to the outside world, in order. *)
Inductive event :=
  | Makedirs (dir : string)
  | Copy (src dst : string)
  | Print (msg : string).

(** The exceptions that can leave [copy_files]. *)
Inductive exn :=
  | IndexError
  | MakedirsFailed (dir : string)
  | CopyFailed (src dst : string).

(** The disk as the export sees it: which paths exist, and the calls made
    so far ([os.makedirs] and [shutil.copy] are logged when they are
    called, whether they succeed or not). *)
Record World := {
  exists_now : string → bool;
  log : list event
}.

(** Which calls of [os.makedirs] and [shutil.copy] succeed during one run
    of the export. *)
Record Env := {
  makedirs_ok : string → bool;
  copy_ok : string → string → bool
}.

(** State and exceptions: a computation changes the world and then returns
    or raises; the changes made before a raise stay. *)
Definition IO (A : Type) : Type := World → (exn + A) * World.

Definition ret {A} (x : A) : IO A := λ w, (inr x, w).

Definition raise {A} (e : exn) : IO A := λ w, (inl e, w).

Definition bind {A B} (m : IO A) (k : A → IO B) : IO B :=
  λ w, match m w with
       | (inl e, w') => (inl e, w')
       | (inr x, w') => k x w'
       end.

Declare Scope io_scope.
Delimit Scope io_scope with io.
Notation "x <- m ;; k" := (bind m (λ x, k))
  (at level 100, m at next level, right associativity) : io_scope.
Notation "m ;; k" := (bind m (λ _, k))
  (at level 100, right associativity) : io_scope.

(** A pure step that may raise [IndexError]. *)
Definition index {A} (o : option A) : IO A :=
  match o with
  | Some x => ret x
  | None => raise IndexError
  end.

(** [for x in l: body(x)] *)
Fixpoint for_each {A} (l : list A) (body : A → IO unit) : IO unit :=
  match l with
  | [] => ret ()
  | x :: rest => (body x ;; for_each rest body)%io
  end.

Definition emit (e : event) : IO unit :=
  λ w, (inr (), {| exists_now := exists_now w; log := log w ++ [e] |}).

(** [os.path.exists(dir)] *)
Definition path_exists (dir : string) : IO bool :=
  λ w, (inr (exists_now w dir), w).

(** [os.makedirs(dir)]: the directory exists afterwards. *)
Definition makedirs (env : Env) (dir : string) : IO unit :=
  (emit (Makedirs dir) ;;
   if makedirs_ok env dir then
     λ w, (inr (), {| exists_now := λ p, String.eqb p dir || exists_now w p;
                      log := log w |})
   else raise (MakedirsFailed dir))%io.

(** [shutil.copy(src=src, dst=dst)] *)
Definition copy (env : Env) (src dst : string) : IO unit :=
  (emit (Copy src dst) ;;
   if copy_ok env src dst then ret () else raise (CopyFailed src dst))%io.

(** [print(msg, dir)] *)
Definition print (msg dir : string) : IO unit :=
  emit (Print (msg +:+ " " +:+ dir)).

(** The list [class_dirs] of [_copy_files]. *)
Definition class_dirs (self : DataSet) (dst_dir : string) : list string :=
  (λ class_name, OsPath.join dst_dir [class_name +:+ "/"])
    <$> class_names self.

(** The helper [_copy_files] of [copy_files]. At both calls [src_paths] is
    the generator [get_paths], which is never longer than
    [class_numbers], so [zip] asks it for no element it then drops. *)
Definition _copy_files (env : Env) (self : DataSet)
    (src_paths : list (option string)) (dst_dir : string)
    (cnumbers : list Z) : IO unit :=
  let dirs := class_dirs self dst_dir in
  (for_each dirs (λ dir,
     present <- path_exists dir ;;
     if negb present then makedirs env dir else ret ()) ;;
   for_each (zip src_paths cnumbers) (λ '(src_gen, cls),
     src <- index src_gen ;;
     dst <- index (py_getitem dirs cls) ;;
     copy env src dst))%io.

(** [DataSet.copy_files] *)
Definition copy_files (env : Env) (self : DataSet)
    (train_dir test_dir : string) : IO unit :=
  (_copy_files env self (get_paths self false) train_dir
     (class_numbers self) ;;
   print "- Copied training-set to:" train_dir ;;
   _copy_files env self (get_paths self true) test_dir
     (class_numbers_test self) ;;
   print "- Copied test-set to:" test_dir)%io.

(** The [shutil.copy] calls of a log, in order. *)
Definition copies (l : list event) : list (string * string) :=
  omap (λ e, match e with Copy src dst => Some (src, dst) | _ => None end) l.

End Exporter.

(** ** The cache wrapper: [load_cached] *)

(** The cache files on disk, and how many times a construction function
    has been invoked by [cache] so far. *)
Record CacheStore (T : Type) := {
  pickles : gmap string T;
  builds : nat
}.
Arguments pickles {T} _.
Arguments builds {T} _.

(** Modelled from the spec: the function [cache] of cache.py, which
    dataset.py imports and which is not among the sources. Section 4.4: if a
    persisted value exists at the cache key it is deserialized and returned
    without invoking the construction function; otherwise the function is
    invoked, its exact result is persisted at the key and returned. The
    persisted form round-trips, so the store holds the value itself. A
    construction that raises persists nothing. *)
Definition cache {T A} (st : CacheStore T) (cache_path : string)
    (fn : A → option T) (args : A) : option (T * CacheStore T) :=
  match pickles st !! cache_path with
  | Some obj => Some (obj, st)
  | None =>
      obj ← fn args;
      Some (obj, {| pickles := <[cache_path := obj]> (pickles st);
                    builds := S (builds st) |})
  end.

(** [load_cached(cache_path, in_dir)]: [cache(cache_path=cache_path,
    fn=DataSet, in_dir=in_dir)]; the message printed first is left out. *)
Definition load_cached (os : OS) (st : CacheStore DataSet)
    (cache_path in_dir0 : string) : option (DataSet * CacheStore DataSet) :=
  cache st cache_path (λ d, __init__ os d default_exts) in_dir0.

(** * Specifications

    The notions the theorems below are stated with. *)

#[local] Instance Q_eq_dec : EqDecision Q.
Proof. solve_decision. Defined.

(** The row for class [c] among [n] classes, written out. *)
Definition unit_row (n c : nat) : list Q :=
  replicate c 0%Q ++ 1%Q :: replicate (n - S c) 0%Q.

(** [row] is the one-hot encoding of class [c] among [n] classes: it has
    [n] entries, a 1.0 at position [c] and 0.0 elsewhere, its [argmax] is
    [c], and exactly one entry is 1.0. *)
Definition is_one_hot (n c : Z) (row : list Q) : Prop :=
  Z.of_nat (length row) = n
  ∧ (∀ j : nat, Z.of_nat j < n →
       row !! j = Some (if decide (Z.of_nat j = c) then 1%Q else 0%Q))
  ∧ Np.argmax row = Some (Z.to_nat c)
  ∧ length (filter (λ x : Q, x = 1%Q) row) = 1%nat.

(** The file records of a split, class by class: the files of the [j]-th
    listing are labelled [k + j], and keep their order. *)
Fixpoint records (k : Z) (listings : list (list string))
    : list (string * Z) :=
  match listings with
  | [] => []
  | l :: rest => ((λ f, (f, k)) <$> l) ++ records (k + 1) rest
  end.

(** The directory that holds the files of class [name] for a split. *)
Definition split_dir (self : DataSet) (test : bool) (name : string)
    : string :=
  let current_dir := OsPath.join (in_dir self) [name] in
  if test then OsPath.join current_dir ["test"] else current_dir.

(** What [_get_filenames] finds there (nothing where it raises). *)
Definition listed (os : OS) (self : DataSet) (test : bool) (name : string)
    : list string :=
  default [] (_get_filenames os self (split_dir self test name)).

(** The stored file names and class numbers of a split. *)
Definition split_filenames (self : DataSet) (test : bool) : list string :=
  if test then filenames_test self else filenames self.

Definition split_numbers (self : DataSet) (test : bool) : list Z :=
  if test then class_numbers_test self else class_numbers self.

(** The sub-directory component [get_paths] puts before the file name. *)
Definition test_component (test : bool) : string :=
  if test then "test/" else "".

(** The invariant of the loop of [DataSet.__init__]: the classes are
    numbered in order, and each split holds, class by class and in listing
    order, the files found for the class. *)
Definition init_inv (os : OS) (self : DataSet) : Prop :=
  num_classes self = Z.of_nat (length (class_names self))
  ∧ ∀ test,
      length (split_filenames self test) = length (split_numbers self test)
      ∧ zip (split_filenames self test) (split_numbers self test)
        = records 0 (listed os self test <$> class_names self).

(** [s] contains the separator. *)
Fixpoint has_slash (s : string) : bool :=
  match s with
  | EmptyString => false
  | String c r => Ascii.eqb c "/" || has_slash r
  end.

(** A name a POSIX directory can hold: not empty, no separator. *)
Definition entry_name (s : string) : bool :=
  negb (String.eqb s "") && negb (has_slash s).

(** The listings of the operating system hold entry names only. *)
Definition posix_names (os : OS) : Prop :=
  ∀ dir entries, listdir os dir = Some entries →
    Forall (λ s, entry_name s = true) entries.

(** The root as a prefix of the paths below it: [os.path.join] adds a
    separator unless the root ends with one (the root directory ["/"]) or is
    empty. *)
Definition dir_prefix (root : string) : string :=
  if String.eqb root "" || Str.endswith root "/" then root
  else root +:+ "/".

(** The copies of one split that the export has to make, in index order:
    the source path and the class directory under [dst_dir]. *)
Definition plan (self : DataSet) (test : bool) (dst_dir : string)
    : list (string * string) :=
  (λ '(filename, cls),
     (OsPath.join (in_dir self)
        [default "" (py_getitem (class_names self) cls);
         test_component test; filename],
      default "" (py_getitem (Exporter.class_dirs self dst_dir) cls)))
    <$> zip (split_filenames self test) (split_numbers self test).

(** The copies of a whole export: the training split, then the test
    split. *)
Definition export_plan (self : DataSet) (train_dir test_dir : string)
    : list (string * string) :=
  plan self false train_dir ++ plan self true test_dir.

(** What a run over a list of copies comes to when a failing copy raises
    at once: the outcome, and the copies attempted. *)
Fixpoint run_plan (env : Exporter.Env) (pl : list (string * string))
    : (Exporter.exn + unit) * list (string * string) :=
  match pl with
  | [] => (inr (), [])
  | (src, dst) :: rest =>
      if Exporter.copy_ok env src dst then
        ((run_plan env rest).1, (src, dst) :: (run_plan env rest).2)
      else (inl (Exporter.CopyFailed src dst), [(src, dst)])
  end.

(** The directory scanned for class [name] and a split, below [root]. *)
Definition scanned_dir (root : string) (test : bool) (name : string)
    : string :=
  if test then OsPath.join (OsPath.join root [name]) ["test"]
  else OsPath.join root [name].

(** The listings of the operating system name no entry twice. *)
Definition distinct_entries (os : OS) : Prop :=
  ∀ dir entries, listdir os dir = Some entries → NoDup entries.

(** The [os.makedirs] calls of a log, in order. *)
Definition makedirs_calls (l : list Exporter.event) : list string :=
  omap (λ e, match e with Exporter.Makedirs dir => Some dir | _ => None end)
    l.

(** [s] holds ASCII characters only. On such strings [str.lower] changes
    the letters A-Z and nothing else, one character at a time. *)
Fixpoint is_ascii (s : string) : bool :=
  match s with
  | EmptyString => true
  | String a r => (nat_of_ascii a <? 128)%nat && is_ascii r
  end.

(** An upper-case letter A-Z. *)
Definition is_upper (a : ascii) : bool :=
  ((65 <=? nat_of_ascii a) && (nat_of_ascii a <=? 90))%nat.

(** Two characters that are equal, or an upper-case letter and its
    lower-case form (32 codes higher). *)
Definition same_letter (a b : ascii) : bool :=
  Ascii.eqb a b
  || (is_upper a && (nat_of_ascii b =? nat_of_ascii a + 32)%nat)
  || (is_upper b && (nat_of_ascii a =? nat_of_ascii b + 32)%nat).

(** Two strings that are equal up to the case of their letters. *)
Fixpoint caseless_eq (s t : string) : bool :=
  match s, t with
  | EmptyString, EmptyString => true
  | String a s', String b t' => same_letter a b && caseless_eq s' t'
  | _, _ => false
  end.

(** [s] ends with [suf], up to the case of the letters. *)
Fixpoint caseless_endswith (s suf : string) : bool :=
  caseless_eq s suf ||
  match s with
  | EmptyString => false
  | String _ r => caseless_endswith r suf
  end.

(** * Concrete file systems

    Inputs on which the model is run. *)

(** A file system given by the listing of each of its directories, under
    the exact path the program asks for. A path listed in its parent and
    absent from the table is a regular file. Paths given to [abspath] are
    already absolute. *)
Definition table : Type := list (string * list string).

Definition table_listdir (t : table) (d : string) : option (list string) :=
  snd <$> List.find (λ e, String.eqb (fst e) d) t.

Definition table_isdir (t : table) (d : string) : bool :=
  existsb (λ e, String.eqb (fst e) d) t.

Definition table_exists (t : table) (p : string) : bool :=
  table_isdir t p
  || existsb (λ e, existsb (λ n, String.eqb (OsPath.join (fst e) [n]) p)
                     (snd e)) t.

Definition table_os (t : table) : OS :=
  {| abspath := id;
     listdir := table_listdir t;
     isdir := table_isdir t;
     path_exists := table_exists t |}.

(** The scenario of the specification: class [cirrus] with two training
    files and one test file, class [cumulus] with one training file and no
    [test] directory; beside them a file in the root and files with other
    extensions. *)
Definition sky_fs : table :=
  [("/data", ["cirrus"; "README.md"; "cumulus"]);
   ("/data/cirrus", ["a.jpg"; "B.JPG"; "notes.png"; "test"]);
   ("/data/cirrus/test", ["t.jpg"; "u.txt"]);
   ("/data/cumulus", ["c.jpg"])].

(** The index of [sky_fs] for [exts=('.jpg',)]. *)
Definition sky_ds : DataSet :=
  {| in_dir := "/data";
     exts := [".jpg"];
     class_names := ["cirrus"; "cumulus"];
     filenames := ["a.jpg"; "B.JPG"; "c.jpg"];
     filenames_test := ["t.jpg"];
     class_numbers := [0; 0; 1];
     class_numbers_test := [0];
     num_classes := 2 |}.

(** The index of [sky_fs] for the default [exts='.jpg']. *)
Definition sky_default_ds : DataSet :=
  {| in_dir := "/data";
     exts := ["."; "j"; "p"; "g"];
     class_names := ["cirrus"; "cumulus"];
     filenames := ["a.jpg"; "B.JPG"; "notes.png"; "c.jpg"];
     filenames_test := ["t.jpg"];
     class_numbers := [0; 0; 0; 1];
     class_numbers_test := [0];
     num_classes := 2 |}.

(** A root whose last class directory holds no file. *)
Definition trailing_fs : table :=
  [("/data", ["cirrus"; "stratus"]);
   ("/data/cirrus", ["a.jpg"]);
   ("/data/stratus", [])].

Definition trailing_ds : DataSet :=
  {| in_dir := "/data";
     exts := [".jpg"];
     class_names := ["cirrus"; "stratus"];
     filenames := ["a.jpg"];
     filenames_test := [];
     class_numbers := [0];
     class_numbers_test := [];
     num_classes := 2 |}.

(** A class directory that holds a sub-directory named like an image. *)
Definition nested_fs : table :=
  [("/data", ["nimbus"]);
   ("/data/nimbus", ["x.jpg"; "y.jpg"]);
   ("/data/nimbus/x.jpg", ["inner.txt"])].

Definition nested_ds : DataSet :=
  {| in_dir := "/data";
     exts := [".jpg"];
     class_names := ["nimbus"];
     filenames := ["x.jpg"; "y.jpg"];
     filenames_test := [];
     class_numbers := [0; 0];
     class_numbers_test := [];
     num_classes := 1 |}.


(** An empty disk. *)
Definition blank_disk : Exporter.World :=
  {| Exporter.exists_now := λ _, false; Exporter.log := [] |}.

(** Every call succeeds except the copies of the source files [bad]. *)
Definition unreadable (bad : list string) : Exporter.Env :=
  {| Exporter.makedirs_ok := λ _, true;
     Exporter.copy_ok := λ src _, negb (existsb (String.eqb src) bad) |}.

(** No cache file yet, no construction yet. *)
Definition empty_store : CacheStore DataSet :=
  {| pickles := ∅; builds := 0 |}.

(** The store after the index of [sky_fs] has been built and persisted. *)
Definition sky_store : CacheStore DataSet :=
  {| pickles := <["/data/clouds-images.pkl" := sky_default_ds]> ∅;
     builds := 1 |}.

(** A root that holds files only. *)
Definition flat_fs : table :=
  [("/data", ["README.md"; "clouds-images.pkl"])].

(** Every call succeeds except the creation of the directories [bad]. *)
Definition uncreatable (bad : list string) : Exporter.Env :=
  {| Exporter.makedirs_ok := λ dir, negb (existsb (String.eqb dir) bad);
     Exporter.copy_ok := λ _ _, true |}.

(** The disk after the export of [sky_ds] to [/out]. *)
Definition exported_disk : Exporter.World :=
  (Exporter.copy_files (unreadable []) sky_ds "/out/train/" "/out/test/"
     blank_disk).2.

(** * Properties *)

(** ** Strings and paths *)

Lemma endswith_refl (s : string) : Str.endswith s s = true.
Proof. destruct s; cbn [Str.endswith]; by rewrite String.eqb_refl. Qed.

Lemma endswith_app (p suf : string) : Str.endswith (p +:+ suf) suf = true.
Proof.
  induction p as [|a p IH]; [apply endswith_refl|].
  change (String a p +:+ suf) with (String a (p +:+ suf)).
  cbn [Str.endswith]. rewrite IH. apply orb_true_r.
Qed.

Lemma endswith_inv (s suf : string) :
  Str.endswith s suf = true → ∃ p, s = p +:+ suf.
Proof.
  induction s as [|a s IH]; cbn [Str.endswith]; intros H.
  - rewrite orb_false_r in H. apply String.eqb_eq in H. by exists "".
  - apply orb_true_iff in H as [H|H].
    + apply String.eqb_eq in H. by exists "".
    + destruct (IH H) as [p ->]. by exists (String a p).
Qed.

(** The last character decides [endswith "/"]. *)
Lemma endswith_slash_app (a b : string) :
  b ≠ "" → Str.endswith (a +:+ b) "/" = Str.endswith b "/".
Proof.
  intros Hb. induction a as [|c a IH]; [done|].
  change (String c a +:+ b) with (String c (a +:+ b)).
  cbn [Str.endswith]. rewrite IH.
  destruct (a +:+ b) eqn:E.
  - destruct a; [change (b = "") in E; congruence | discriminate].
  - replace (String c (String a0 s) =? "/")%string with false; [done|].
    symmetry. by apply String.eqb_neq.
Qed.

(** ** Indexing *)

Lemma py_getitem_nonneg {A} (l : list A) (i : Z) :
  0 ≤ i → py_getitem l i = l !! Z.to_nat i.
Proof. intros H. unfold py_getitem. by rewrite decide_True. Qed.

Lemma py_getitem_Some_range {A} (l : list A) (i : Z) :
  0 ≤ i < Z.of_nat (length l) → is_Some (py_getitem l i).
Proof.
  intros H. rewrite py_getitem_nonneg by lia.
  apply lookup_lt_is_Some. lia.
Qed.

(** ** One-hot rows *)

Lemma fmap_const_replicate {A B} (f : A → B) (y : B) (l : list A) :
  Forall (λ x, f x = y) l → f <$> l = replicate (length l) y.
Proof.
  induction 1 as [|x l Hx _ IH]; [done|].
  rewrite fmap_cons, Hx, IH. reflexivity.
Qed.

Lemma eye_row_unit (n c : nat) : (c < n)%nat → Np.eye_row n c = unit_row n c.
Proof.
  intros Hc. unfold Np.eye_row, unit_row.
  replace n with (c + S (n - S c))%nat at 1 by lia.
  rewrite seq_app, fmap_app. simpl. rewrite decide_True by done.
  f_equal; [|f_equal].
  - rewrite (fmap_const_replicate _ 0%Q), length_seq; [done|].
    apply Forall_forall. intros j Hj%elem_of_seq.
    rewrite decide_False; [done | lia].
  - rewrite (fmap_const_replicate _ 0%Q), length_seq; [done|].
    apply Forall_forall. intros j Hj%elem_of_seq.
    rewrite decide_False; [done | lia].
Qed.

Lemma eye_lookup (n i : nat) :
  (i < n)%nat → Np.eye n !! i = Some (Np.eye_row n i).
Proof.
  intros Hi. unfold Np.eye.
  rewrite list_lookup_fmap, lookup_seq_lt by done. reflexivity.
Qed.

Lemma eye_length (n : nat) : length (Np.eye n) = n.
Proof. unfold Np.eye. by rewrite length_fmap, length_seq. Qed.

Lemma unit_row_length (n c : nat) : (c < n)%nat → length (unit_row n c) = n.
Proof.
  intros Hc. unfold unit_row.
  rewrite length_app. simpl. rewrite !length_replicate. lia.
Qed.

Lemma unit_row_lookup (n c j : nat) :
  (c < n)%nat → (j < n)%nat →
  unit_row n c !! j = Some (if decide (j = c) then 1%Q else 0%Q).
Proof.
  intros Hc Hj. unfold unit_row.
  destruct (decide (j < c)%nat) as [Hlt|Hge].
  - rewrite lookup_app_l by (rewrite length_replicate; lia).
    rewrite lookup_replicate_2 by done. rewrite decide_False; [done | lia].
  - rewrite lookup_app_r by (rewrite length_replicate; lia).
    rewrite length_replicate.
    destruct (decide (j = c)) as [->|Hne].
    + by rewrite Nat.sub_diag.
    + destruct (j - c)%nat as [|k] eqn:E; [lia|]. simpl.
      rewrite lookup_replicate_2; [done | lia].
Qed.

Lemma argmax_from_zeros (best : Q) (bi i k : nat) :
  Qle_bool 0 best = true →
  Np.argmax_from best bi i (replicate k 0%Q) = bi.
Proof.
  intros Hb. revert i. induction k as [|k IH]; intros i; simpl; [done|].
  rewrite Hb. apply IH.
Qed.

Lemma argmax_from_unit (bi i c k : nat) :
  Np.argmax_from 0%Q bi i (replicate c 0%Q ++ 1%Q :: replicate k 0%Q)
  = (i + c)%nat.
Proof.
  revert i. induction c as [|c IH]; intros i; simpl.
  - rewrite argmax_from_zeros by done. lia.
  - rewrite IH. lia.
Qed.

Lemma argmax_unit_row (n c : nat) :
  (c < n)%nat → Np.argmax (unit_row n c) = Some c.
Proof.
  intros Hc. unfold unit_row. destruct c as [|c]; simpl; f_equal.
  - by apply argmax_from_zeros.
  - by rewrite argmax_from_unit.
Qed.

Lemma filter_one_zeros (k : nat) :
  filter (λ x : Q, x = 1%Q) (replicate k 0%Q) = [].
Proof.
  induction k as [|k IH]; simpl; [done|]. by rewrite filter_cons_False.
Qed.

Lemma count_ones_unit_row (n c : nat) :
  length (filter (λ x : Q, x = 1%Q) (unit_row n c)) = 1%nat.
Proof.
  unfold unit_row. rewrite filter_app, filter_cons_True by done.
  by rewrite !filter_one_zeros.
Qed.

(** ** The largest class number *)

Lemma foldl_max_spec (r : list Z) (x : Z) :
  x ≤ foldl Z.max x r
  ∧ Forall (λ c, c ≤ foldl Z.max x r) r
  ∧ foldl Z.max x r ∈ x :: r.
Proof.
  revert x. induction r as [|y r IH]; intros x; simpl.
  - split; [lia|]. split; [constructor | apply list_elem_of_here].
  - destruct (IH (Z.max x y)) as (H1 & H2 & H3).
    split; [lia|]. split.
    + constructor; [lia | done].
    + apply elem_of_cons in H3 as [H3|H3].
      * rewrite H3. destruct (Z.max_spec x y) as [[_ ->]|[_ ->]].
        -- apply list_elem_of_further, list_elem_of_here.
        -- apply list_elem_of_here.
      * by do 2 apply list_elem_of_further.
Qed.

Lemma np_max_is_max (cs : list Z) (m : Z) :
  m ∈ cs → Forall (λ c, c ≤ m) cs → Np.max cs = Some m.
Proof.
  intros Hin Hle. destruct cs as [|x r]; [by apply elem_of_nil in Hin|].
  simpl. f_equal.
  destruct (foldl_max_spec r x) as (H1 & H2 & H3).
  pose proof (proj1 (Forall_forall _ _) Hle _ H3) as Ha. simpl in Ha.
  assert (m ≤ foldl Z.max x r); [|lia].
  apply elem_of_cons in Hin as [->|Hin]; [done|].
  by apply (proj1 (Forall_forall (λ c, c ≤ foldl Z.max x r) r) H2).
Qed.

Lemma unit_row_is_one_hot (n c : Z) :
  0 ≤ c < n → is_one_hot n c (unit_row (Z.to_nat n) (Z.to_nat c)).
Proof.
  intros Hc. unfold is_one_hot.
  rewrite unit_row_length, argmax_unit_row, count_ones_unit_row by lia.
  split; [lia|]. split; [|done].
  intros j Hj. rewrite unit_row_lookup by lia.
  f_equal. destruct (decide (j = Z.to_nat c)), (decide (Z.of_nat j = c));
    (done || lia).
Qed.

Lemma one_hot_rows (cs : list Z) (n : Z) :
  Forall (λ c, 0 ≤ c < n) cs →
  mapM (py_getitem (Np.eye (Z.to_nat n))) cs
  = Some ((λ c, unit_row (Z.to_nat n) (Z.to_nat c)) <$> cs).
Proof.
  intros Hcs. apply mapM_Some. apply Forall2_fmap_r, Forall_Forall2_diag.
  eapply Forall_impl; [exact Hcs|]. intros c Hc. cbv beta in *.
  rewrite py_getitem_nonneg by lia.
  rewrite eye_lookup, eye_row_unit by lia. reflexivity.
Qed.

(** C2. For a number of classes [num_classes] (not negative) and class
    numbers in [0, num_classes), [one_hot_encoded] returns one row per class
    number, and the row of [c] has [num_classes] entries with 1.0 at
    position [c] and 0.0 elsewhere, so that its argmax is [c] and exactly one
    entry is 1.0. When [num_classes] is not given, the result is the one for
    [num_classes = m + 1], with [m] the largest class number. *)
Theorem one_hot_encoded_correct (cs : list Z) (n : Z) :
  0 ≤ n →
  Forall (λ c, 0 ≤ c < n) cs →
  (∃ rows, one_hot_encoded cs (Some n) = Some rows
           ∧ Forall2 (is_one_hot n) cs rows)
  ∧ (∀ m, m ∈ cs → Forall (λ c, c ≤ m) cs →
       one_hot_encoded cs None = one_hot_encoded cs (Some (m + 1))).
Proof.
  intros Hn Hcs. split.
  - exists ((λ c, unit_row (Z.to_nat n) (Z.to_nat c)) <$> cs). split.
    + unfold one_hot_encoded. simpl.
      rewrite decide_False by lia. by apply one_hot_rows.
    + apply Forall2_fmap_r, Forall_Forall2_diag.
      eapply Forall_impl; [exact Hcs|]. intros c Hc. cbv beta in *.
      by apply unit_row_is_one_hot.
  - intros m Hin Hle. unfold one_hot_encoded, default_num_classes.
    by rewrite (np_max_is_max cs m).
Qed.

Lemma one_hot_encoded_correct_witness :
  (∃ rows, one_hot_encoded [2; 0; 1; 2] (Some 3) = Some rows
           ∧ Forall2 (is_one_hot 3) [2; 0; 1; 2] rows)
  ∧ one_hot_encoded [2; 0; 1; 2] None = one_hot_encoded [2; 0; 1; 2] (Some 3).
Proof.
  assert (H : Forall (λ c, 0 ≤ c < 3) [2; 0; 1; 2])
    by (repeat constructor; lia).
  destruct (one_hot_encoded_correct [2; 0; 1; 2] 3 ltac:(lia) H)
    as [Hrows Hdef].
  split; [exact Hrows|].
  apply (Hdef 2).
  - apply list_elem_of_here.
  - repeat constructor; lia.
Defined.

(** ** File records *)

Lemma records_app (k : Z) (ls1 ls2 : list (list string)) :
  records k (ls1 ++ ls2)
  = records k ls1 ++ records (k + Z.of_nat (length ls1)) ls2.
Proof.
  revert k. induction ls1 as [|l ls1 IH]; intros k; simpl.
  - by rewrite Z.add_0_r.
  - rewrite IH, <- app_assoc. do 3 f_equal. lia.
Qed.

Lemma records_fst (k : Z) (ls : list (list string)) :
  (records k ls).*1 = concat ls.
Proof.
  revert k. induction ls as [|l ls IH]; intros k; simpl; [done|].
  rewrite fmap_app, IH, <- list_fmap_compose. f_equal.
  by apply list_fmap_id.
Qed.

Lemma elem_of_records (k : Z) (ls : list (list string)) (f : string) (c : Z) :
  (f, c) ∈ records k ls
  ↔ ∃ (j : nat) l, ls !! j = Some l ∧ c = k + Z.of_nat j ∧ f ∈ l.
Proof.
  revert k. induction ls as [|l ls IH]; intros k; simpl.
  - split; [by intros ?%elem_of_nil | by intros (j & l & ? & _)].
  - rewrite elem_of_app, list_elem_of_fmap, IH. split.
    + intros [(f' & [= -> ->] & Hin) | (j & l' & Hj & -> & Hin)].
      * exists 0%nat, l. split; [done|]. split; [lia | done].
      * exists (S j), l'. split; [done|]. split; [lia | done].
    + intros ([|j] & l' & Hj & -> & Hin); simpl in Hj.
      * injection Hj as <-. left. exists f. split; [f_equal; lia | done].
      * right. exists j, l'. split; [done|]. split; [lia | done].
Qed.

Lemma zip_replicate_label (l : list string) (k : Z) :
  zip l (replicate (length l) k) = (λ f, (f, k)) <$> l.
Proof. by rewrite zip_with_replicate_r_eq. Qed.

(** ** The loop of the constructor *)

Lemma get_filenames_ext (os : OS) (s s' : DataSet) (dir : string) :
  exts s = exts s' → _get_filenames os s dir = _get_filenames os s' dir.
Proof. intros E. unfold _get_filenames. by rewrite E. Qed.

Lemma listed_ext (os : OS) (s s' : DataSet) (test : bool) (name : string) :
  in_dir s = in_dir s' → exts s = exts s' →
  listed os s test name = listed os s' test name.
Proof.
  intros Ed Ee. unfold listed, split_dir. rewrite Ed.
  by rewrite (get_filenames_ext os s s').
Qed.

Lemma init_body_spec (os : OS) (self self' : DataSet) (name : string) :
  init_inv os self →
  init_body os self name = Some self' →
  init_inv os self'
  ∧ in_dir self' = in_dir self
  ∧ exts self' = exts self
  ∧ class_names self'
    = class_names self
      ++ (if isdir os (OsPath.join (in_dir self) [name]) then [name] else []).
Proof.
  intros [Hn Hsplit] Hbody. unfold init_body in Hbody.
  destruct (isdir os _); [|injection Hbody as <-; by rewrite app_nil_r].
  destruct (_get_filenames os self (OsPath.join (in_dir self) [name]))
    as [tr|] eqn:Htr; [|done].
  destruct (_get_filenames os self
              (OsPath.join (OsPath.join (in_dir self) [name]) ["test"]))
    as [te|] eqn:Hte; [|done].
  simpl in Hbody. injection Hbody as <-. simpl.
  split; [|done]. split; simpl.
  { rewrite length_app. simpl. lia. }
  intros test.
  set (self' := {| in_dir := in_dir self |}).
  assert (Hl : ∀ nm, listed os self' test nm = listed os self test nm)
    by (intros nm; by apply listed_ext).
  destruct (Hsplit test) as [Hlen Hzip].
  rewrite fmap_app, records_app.
  rewrite (list_fmap_ext _ (listed os self test) (class_names self))
    by (intros ? nm _; apply Hl).
  rewrite <- Hzip.
  rewrite length_fmap, Z.add_0_l, <- Hn. simpl. rewrite app_nil_r.
  assert (Hnew : listed os self' test name = if test then te else tr).
  { rewrite Hl. unfold listed, split_dir. destruct test.
    - by rewrite Hte.
    - by rewrite Htr. }
  rewrite Hnew.
  destruct test; simpl in *; rewrite !length_app, length_replicate;
    (split; [lia|]); rewrite zip_with_app by done;
    by rewrite zip_replicate_label.
Qed.

Lemma init_loop_spec (os : OS) (names : list string) (self ds : DataSet) :
  init_inv os self →
  init_loop os self names = Some ds →
  init_inv os ds
  ∧ in_dir ds = in_dir self
  ∧ exts ds = exts self
  ∧ class_names ds
    = class_names self
      ++ List.filter (λ n, isdir os (OsPath.join (in_dir self) [n])) names.
Proof.
  revert self. induction names as [|name rest IH]; intros self Hinv Hloop.
  - injection Hloop as <-. by rewrite app_nil_r.
  - cbn [init_loop] in Hloop.
    destruct (init_body os self name) as [self'|] eqn:Hbody; [|done].
    simpl in Hloop.
    destruct (init_body_spec _ _ _ _ Hinv Hbody) as (Hinv' & Hd & He & Hc).
    destruct (IH _ Hinv' Hloop) as (Hds & Hd' & He' & Hc').
    split; [done|]. split; [congruence|]. split; [congruence|].
    rewrite Hc', Hc, Hd, <- app_assoc. f_equal. simpl.
    by destruct (isdir os _).
Qed.

Lemma init_fields_inv (os : OS) (d : string) (e : exts_arg) :
  init_inv os (init_fields os d e).
Proof. split; [done|]. by intros []. Qed.

(** What a successful construction returns: the root is the absolute path,
    the classes are the directories among the entries of the root, in
    listing order, and the loop invariant holds. *)
Lemma init_spec (os : OS) (d : string) (e : exts_arg) (ds : DataSet) :
  __init__ os d e = Some ds →
  init_inv os ds
  ∧ in_dir ds = abspath os d
  ∧ exts ds = lower_exts e
  ∧ ∃ names, listdir os (abspath os d) = Some names
      ∧ class_names ds
        = List.filter (λ n, isdir os (OsPath.join (abspath os d) [n])) names.
Proof.
  unfold __init__. intros H.
  destruct (listdir os (in_dir (init_fields os d e))) as [names|] eqn:Hls;
    [|done].
  simpl in H.
  destruct (init_loop_spec _ _ _ _ (init_fields_inv os d e) H)
    as (Hinv & Hd & He & Hc).
  split; [done|]. split; [done|]. split; [done|]. by exists names.
Qed.

(** ** Consequences of the invariant *)

Lemma inv_record_iff (os : OS) (ds : DataSet) (test : bool)
    (f : string) (c : Z) :
  init_inv os ds →
  (f, c) ∈ zip (split_filenames ds test) (split_numbers ds test)
  ↔ ∃ (j : nat) name, class_names ds !! j = Some name
      ∧ c = Z.of_nat j ∧ f ∈ listed os ds test name.
Proof.
  intros [_ Hsplit]. destruct (Hsplit test) as [_ ->].
  rewrite elem_of_records. split.
  - intros (j & l & Hj & -> & Hin).
    apply list_lookup_fmap_Some in Hj as (name & -> & Hname).
    exists j, name. split; [done|]. split; [lia | done].
  - intros (j & name & Hj & -> & Hin).
    exists j, (listed os ds test name).
    rewrite list_lookup_fmap, Hj. split; [done|]. split; [lia | done].
Qed.

Lemma inv_numbers_range (os : OS) (ds : DataSet) (test : bool) :
  init_inv os ds →
  Forall (λ c, 0 ≤ c < num_classes ds) (split_numbers ds test).
Proof.
  intros Hinv. apply Forall_forall. intros c Hc.
  apply list_elem_of_lookup in Hc as [i Hi].
  destruct Hinv as [Hn Hsplit]. destruct (Hsplit test) as [Hlen _].
  destruct (lookup_lt_is_Some_2 (split_filenames ds test) i) as [f Hf].
  { rewrite Hlen. by eapply lookup_lt_Some. }
  assert (Hz : (f, c) ∈ zip (split_filenames ds test)
                          (split_numbers ds test)).
  { apply list_elem_of_lookup. exists i. by apply lookup_zip_Some. }
  apply (inv_record_iff os) in Hz as (j & name & Hj & -> & _);
    [|by split].
  apply lookup_lt_Some in Hj. lia.
Qed.

(** What [_get_filenames] returns where the directory exists. *)
Lemma get_filenames_exists (os : OS) (self : DataSet) (dir : string)
    (entries : list string) :
  path_exists os dir = true →
  listdir os dir = Some entries →
  _get_filenames os self dir
  = Some (List.filter
            (λ f, Str.endswith_any (Str.lower f) (exts self)) entries).
Proof. intros He Hl. unfold _get_filenames. by rewrite He, Hl. Qed.


(** A listed file is an entry of the directory of its class and split, and
    its lower-cased name ends with an accepted extension. *)
Lemma elem_of_listed (os : OS) (self : DataSet) (test : bool)
    (name f : string) :
  f ∈ listed os self test name →
  ∃ entries, listdir os (split_dir self test name) = Some entries
    ∧ f ∈ entries
    ∧ Str.endswith_any (Str.lower f) (exts self) = true.
Proof.
  unfold listed, _get_filenames.
  destruct (path_exists os _); [|by intros ?%elem_of_nil].
  destruct (listdir os _) as [entries|]; [|by intros ?%elem_of_nil].
  simpl. intros Hin%list_elem_of_In%filter_In.
  exists entries. split; [done|]. by rewrite list_elem_of_In.
Qed.

(** ** Running the model *)

Lemma sky_init :
  __init__ (table_os sky_fs) "/data" (ExtTuple [".jpg"]) = Some sky_ds.
Proof. reflexivity. Qed.

Lemma sky_training_set :
  get_training_set sky_ds
  = Some (["/data/cirrus/a.jpg"; "/data/cirrus/B.JPG"; "/data/cumulus/c.jpg"],
          [0; 0; 1],
          [[1%Q; 0%Q]; [1%Q; 0%Q]; [0%Q; 1%Q]]).
Proof. reflexivity. Qed.

Lemma sky_test_set :
  get_test_set sky_ds
  = Some (["/data/cirrus/test/t.jpg"], [0], [[1%Q; 0%Q]]).
Proof. reflexivity. Qed.

Lemma trailing_init :
  __init__ (table_os trailing_fs) "/data" (ExtTuple [".jpg"])
  = Some trailing_ds.
Proof. reflexivity. Qed.

(** ** Class numbers are valid indices *)

(** C8. After a successful construction, [len(class_names)] is
    [num_classes], and every class number of the training and of the test
    split lies in [0, num_classes) and indexes [class_names]. *)
Theorem class_numbers_valid (os : OS) (d : string) (e : exts_arg)
    (ds : DataSet) :
  __init__ os d e = Some ds →
  Z.of_nat (length (class_names ds)) = num_classes ds
  ∧ ∀ c, c ∈ class_numbers ds ∨ c ∈ class_numbers_test ds →
      0 ≤ c < num_classes ds ∧ is_Some (py_getitem (class_names ds) c).
Proof.
  intros Hinit. destruct (init_spec _ _ _ _ Hinit) as (Hinv & _).
  pose proof Hinv as [Hn _]. split; [done|].
  intros c Hc.
  assert (Hr : 0 ≤ c < num_classes ds).
  { destruct Hc as [Hc|Hc].
    - pose proof (inv_numbers_range os ds false Hinv) as Hall.
      by apply (proj1 (Forall_forall _ _) Hall).
    - pose proof (inv_numbers_range os ds true Hinv) as Hall.
      by apply (proj1 (Forall_forall _ _) Hall). }
  split; [done|]. apply py_getitem_Some_range. lia.
Qed.

Lemma class_numbers_valid_witness :
  Z.of_nat (length (class_names sky_ds)) = num_classes sky_ds
  ∧ ∀ c, c ∈ class_numbers sky_ds ∨ c ∈ class_numbers_test sky_ds →
      0 ≤ c < num_classes sky_ds
      ∧ is_Some (py_getitem (class_names sky_ds) c).
Proof.
  apply (class_numbers_valid (table_os sky_fs) "/data" (ExtTuple [".jpg"])).
  reflexivity.
Defined.

(** ** The class count and the largest class number *)

Lemma np_max_Some (l : list Z) (m : Z) :
  Np.max l = Some m → m ∈ l ∧ Forall (λ c, c ≤ m) l.
Proof.
  destruct l as [|x r]; [done|]. simpl. intros [= <-].
  destruct (foldl_max_spec r x) as (H1 & H2 & H3).
  split; [done|]. by constructor.
Qed.

Lemma number_has_record (os : OS) (ds : DataSet) (test : bool) (c : Z) :
  init_inv os ds →
  c ∈ split_numbers ds test →
  ∃ f, (f, c) ∈ zip (split_filenames ds test) (split_numbers ds test).
Proof.
  intros [_ Hsplit] Hc. destruct (Hsplit test) as [Hlen _].
  apply list_elem_of_lookup in Hc as [i Hi].
  destruct (lookup_lt_is_Some_2 (split_filenames ds test) i) as [f Hf].
  { rewrite Hlen. by eapply lookup_lt_Some. }
  exists f. apply list_elem_of_lookup. exists i. by apply lookup_zip_Some.
Qed.

Lemma numbers_split (ds : DataSet) (c : Z) :
  c ∈ class_numbers ds ++ class_numbers_test ds
  ↔ ∃ test, c ∈ split_numbers ds test.
Proof.
  rewrite elem_of_app. split.
  - intros [H|H]; [by exists false | by exists true].
  - intros [[] H]; [by right | by left].
Qed.

(** The largest class number is [num_classes - 1] exactly when the class
    discovered last has a file in one of the splits. *)
Lemma last_class_used (os : OS) (ds : DataSet) :
  init_inv os ds →
  (num_classes ds - 1) ∈ class_numbers ds ++ class_numbers_test ds
  ↔ ∃ name test, last (class_names ds) = Some name
      ∧ listed os ds test name ≠ [].
Proof.
  intros Hinv. pose proof Hinv as [Hn _]. rewrite numbers_split. split.
  - intros [test Hc].
    destruct (number_has_record os ds test _ Hinv Hc) as [f Hf].
    apply (inv_record_iff os) in Hf as (j & name & Hj & Hc' & Hin);
      [|done].
    exists name, test. split.
    + rewrite last_lookup, <- Hj. f_equal. lia.
    + intros E. rewrite E in Hin. by apply elem_of_nil in Hin.
  - intros (name & test & Hlast & Hne). exists test.
    destruct (listed os ds test name) as [|f l] eqn:E; [done|].
    rewrite last_lookup in Hlast.
    assert (Hz : (f, num_classes ds - 1)
                   ∈ zip (split_filenames ds test) (split_numbers ds test)).
    { apply (inv_record_iff os); [done|].
      exists (pred (length (class_names ds))), name.
      split; [done|]. split.
      - apply lookup_lt_Some in Hlast. lia.
      - rewrite E. apply list_elem_of_here. }
    by apply elem_of_zip_r in Hz.
Qed.

(** C5, as the code has it. After a successful construction
    [len(class_names)] is [num_classes]; when a file exists, so that the
    largest class number [m] of the two splits is defined, [1 + m] is at
    most [num_classes], and the two are equal exactly when the class
    directory discovered last holds a matching file in one of the splits. *)
Theorem class_count_bound (os : OS) (d : string) (e : exts_arg)
    (ds : DataSet) (m : Z) :
  __init__ os d e = Some ds →
  Np.max (class_numbers ds ++ class_numbers_test ds) = Some m →
  Z.of_nat (length (class_names ds)) = num_classes ds
  ∧ 1 + m ≤ num_classes ds
  ∧ (1 + m = num_classes ds
     ↔ ∃ name test, last (class_names ds) = Some name
         ∧ listed os ds test name ≠ []).
Proof.
  intros Hinit Hmax. destruct (init_spec _ _ _ _ Hinit) as (Hinv & _).
  pose proof Hinv as [Hn _]. split; [done|].
  apply np_max_Some in Hmax as [Hin Hle].
  assert (Hall : ∀ c, c ∈ class_numbers ds ++ class_numbers_test ds →
                      0 ≤ c < num_classes ds).
  { intros c [test Hc]%numbers_split.
    by apply (proj1 (Forall_forall _ _) (inv_numbers_range os ds test Hinv)). }
  pose proof (Hall m Hin) as Hm. split; [lia|].
  rewrite <- (last_class_used os ds Hinv). split.
  - intros E. by replace (num_classes ds - 1) with m by lia.
  - intros Hlast.
    pose proof (proj1 (Forall_forall _ _) Hle _ Hlast) as Hb. simpl in Hb. lia.
Qed.

Lemma class_count_bound_witness :
  Z.of_nat (length (class_names sky_ds)) = num_classes sky_ds
  ∧ 1 + 1 ≤ num_classes sky_ds
  ∧ (1 + 1 = num_classes sky_ds
     ↔ ∃ name test, last (class_names sky_ds) = Some name
         ∧ listed (table_os sky_fs) sky_ds test name ≠ []).
Proof.
  apply (class_count_bound (table_os sky_fs) "/data" (ExtTuple [".jpg"])).
  - reflexivity.
  - reflexivity.
Defined.

(** C5, as the specification states it, fails: in [trailing_fs] the class
    discovered last has no file, so a file exists, the largest class number
    is 0 and there are two classes. *)
Lemma class_count_counterexample :
  __init__ (table_os trailing_fs) "/data" (ExtTuple [".jpg"])
  = Some trailing_ds
  ∧ filenames trailing_ds = ["a.jpg"]
  ∧ Np.max (class_numbers trailing_ds ++ class_numbers_test trailing_ds)
    = Some 0
  ∧ Z.of_nat (length (class_names trailing_ds)) = 2
  ∧ num_classes trailing_ds = 2
  ∧ num_classes trailing_ds ≠ 1 + 0.
Proof. repeat split; done. Qed.

(** ** The accessors *)

Lemma mapM_id_fmap {A B} (g : A → option B) (h : A → B) (l : list A) :
  (∀ x, x ∈ l → g x = Some (h x)) → mapM id (g <$> l) = Some (h <$> l).
Proof.
  intros H. apply mapM_Some, Forall2_fmap, Forall_Forall2_diag, Forall_forall.
  intros x Hx. by apply H.
Qed.

Lemma get_paths_unfold (self : DataSet) (test : bool) :
  get_paths self test
  = (λ '(filename, cls),
       class_name ← py_getitem (class_names self) cls;
       Some (OsPath.join (in_dir self)
               [class_name; test_component test; filename]))
      <$> zip (split_filenames self test) (split_numbers self test).
Proof. by destruct test. Qed.

Lemma get_set_unfold (self : DataSet) (test : bool) :
  (if test then get_test_set self else get_training_set self)
  = (paths ← py_list (get_paths self test);
     one_hot ← one_hot_encoded (split_numbers self test)
                 (Some (num_classes self));
     Some (paths, split_numbers self test, one_hot)).
Proof. by destruct test. Qed.

(** With class numbers in range, the generator raises nowhere. *)
Lemma get_paths_list (self : DataSet) (test : bool) :
  Forall (λ c, 0 ≤ c < Z.of_nat (length (class_names self)))
    (split_numbers self test) →
  py_list (get_paths self test)
  = Some ((λ '(filename, cls),
             OsPath.join (in_dir self)
               [default "" (py_getitem (class_names self) cls);
                test_component test; filename])
            <$> zip (split_filenames self test) (split_numbers self test)).
Proof.
  intros Hr. rewrite get_paths_unfold. apply mapM_id_fmap.
  intros [f c] Hfc. apply elem_of_zip_r in Hfc.
  pose proof (proj1 (Forall_forall _ _) Hr _ Hfc) as Hc. simpl in Hc.
  by destruct (py_getitem_Some_range (class_names self) c Hc) as [name ->].
Qed.

(** C3. After a successful construction, [get_training_set] and
    [get_test_set] return paths, class numbers and one-hot rows of one
    length; the stored records are the files of each class in class
    order and listing order; and at every index the file name was listed in
    the directory of the class that the class number names, the path is
    built from that class name and the row encodes that class number. *)
Theorem accessors_aligned (os : OS) (d : string) (e : exts_arg)
    (ds : DataSet) (test : bool) :
  __init__ os d e = Some ds →
  ∃ paths one_hot,
    (if test then get_test_set ds else get_training_set ds)
    = Some (paths, split_numbers ds test, one_hot)
    ∧ length paths = length (split_numbers ds test)
    ∧ length one_hot = length (split_numbers ds test)
    ∧ zip (split_filenames ds test) (split_numbers ds test)
      = records 0 (listed os ds test <$> class_names ds)
    ∧ ∀ (i : nat) c, split_numbers ds test !! i = Some c →
        ∃ name f row,
          py_getitem (class_names ds) c = Some name
          ∧ split_filenames ds test !! i = Some f
          ∧ f ∈ listed os ds test name
          ∧ paths !! i
            = Some (OsPath.join (in_dir ds) [name; test_component test; f])
          ∧ one_hot !! i = Some row
          ∧ is_one_hot (num_classes ds) c row.
Proof.
  intros Hinit. destruct (init_spec _ _ _ _ Hinit) as (Hinv & _).
  pose proof Hinv as [Hn Hsplit]. destruct (Hsplit test) as [Hlen Hzip].
  pose proof (inv_numbers_range os ds test Hinv) as Hr.
  eexists _, _. rewrite get_set_unfold, get_paths_list by by rewrite <- Hn.
  unfold one_hot_encoded. simpl.
  rewrite decide_False by lia. rewrite one_hot_rows by done. simpl.
  split; [reflexivity|].
  rewrite !length_fmap, length_zip, Hlen, Nat.min_id.
  split; [done|]. split; [done|]. split; [done|].
  intros i c Hi.
  pose proof (proj1 (Forall_lookup _ _) Hr i c Hi) as Hc. simpl in Hc.
  destruct (lookup_lt_is_Some_2 (split_filenames ds test) i) as [f Hf].
  { rewrite Hlen. by eapply lookup_lt_Some. }
  assert (Hz : zip (split_filenames ds test) (split_numbers ds test) !! i
               = Some (f, c)) by by apply lookup_zip_Some.
  assert (Hrec : (f, c) ∈ zip (split_filenames ds test)
                            (split_numbers ds test))
    by (apply list_elem_of_lookup; by exists i).
  apply (inv_record_iff os) in Hrec as (j & name & Hj & -> & Hin); [|done].
  exists name, f,
    (unit_row (Z.to_nat (num_classes ds)) (Z.to_nat (Z.of_nat j))).
  assert (Hget : py_getitem (class_names ds) (Z.of_nat j) = Some name).
  { rewrite py_getitem_nonneg by lia. by rewrite Nat2Z.id. }
  split; [done|]. split; [done|]. split; [done|]. split.
  { rewrite list_lookup_fmap, Hz. simpl. by rewrite Hget. }
  split.
  { by rewrite list_lookup_fmap, Hi. }
  by apply unit_row_is_one_hot.
Qed.

Lemma accessors_aligned_witness :
  ∃ paths one_hot,
    get_training_set sky_ds = Some (paths, [0; 0; 1], one_hot)
    ∧ length paths = 3%nat
    ∧ length one_hot = 3%nat.
Proof.
  destruct (accessors_aligned (table_os sky_fs) "/data" (ExtTuple [".jpg"])
              sky_ds false eq_refl) as (paths & one_hot & H1 & H2 & H3 & _).
  exists paths, one_hot. split; [exact H1|]. split; [exact H2 | exact H3].
Defined.

(** ** Reconstructed paths *)

Lemma str_app_assoc (a b c : string) : (a +:+ b) +:+ c = a +:+ (b +:+ c).
Proof.
  induction a as [|x a IH]; [done|].
  change (String x ((a +:+ b) +:+ c) = String x (a +:+ (b +:+ c))).
  by rewrite IH.
Qed.

Lemma str_app_empty_inv (a b : string) : a +:+ b = "" → b = "".
Proof. by destruct a. Qed.

Lemma has_slash_app (a b : string) :
  has_slash (a +:+ b) = has_slash a || has_slash b.
Proof.
  induction a as [|x a IH]; [done|].
  change (has_slash (String x (a +:+ b))
          = has_slash (String x a) || has_slash b).
  cbn [has_slash]. by rewrite IH, orb_assoc.
Qed.

Lemma entry_name_nonempty (s : string) : entry_name s = true → s ≠ "".
Proof.
  unfold entry_name. intros [H _]%andb_true_iff.
  apply negb_true_iff in H. by apply String.eqb_neq.
Qed.

Lemma entry_name_startswith (s : string) :
  entry_name s = true → Str.startswith s "/" = false.
Proof.
  unfold entry_name. intros [_ H]%andb_true_iff. apply negb_true_iff in H.
  destruct s as [|c r]; [done|]. cbn [has_slash] in H.
  apply orb_false_iff in H as [H _]. cbn [Str.startswith]. by rewrite H.
Qed.

Lemma entry_name_endswith (s : string) :
  entry_name s = true → Str.endswith s "/" = false.
Proof.
  unfold entry_name. intros [_ H]%andb_true_iff. apply negb_true_iff in H.
  destruct (Str.endswith s "/") eqn:E; [|done].
  apply endswith_inv in E as [p ->].
  rewrite has_slash_app in H. apply orb_false_iff in H as [_ H]. done.
Qed.

Lemma join2_root (root name : string) :
  Str.startswith name "/" = false →
  OsPath.join2 root name = dir_prefix root +:+ name.
Proof.
  intros H. unfold OsPath.join2, dir_prefix. rewrite H.
  destruct (String.eqb root "" || Str.endswith root "/"); [done|].
  by rewrite str_app_assoc.
Qed.

Lemma join2_after_dir (p f : string) :
  Str.startswith f "/" = false →
  OsPath.join2 (p +:+ "/") f = p +:+ "/" +:+ f.
Proof.
  intros H. unfold OsPath.join2. rewrite H, endswith_app, orb_true_r.
  by rewrite str_app_assoc.
Qed.

(** [os.path.join(root, class_name, test_dir, filename)], written out. *)
Lemma join_path (root name f : string) (test : bool) :
  entry_name name = true →
  Str.startswith f "/" = false →
  OsPath.join root [name; test_component test; f]
  = dir_prefix root +:+ name +:+ "/" +:+ test_component test +:+ f.
Proof.
  intros Hname Hf. unfold OsPath.join. cbn [foldl].
  rewrite (join2_root root name) by by apply entry_name_startswith.
  set (p := dir_prefix root +:+ name).
  assert (Hne : p ≠ "").
  { intros E. apply str_app_empty_inv in E.
    by apply entry_name_nonempty in Hname. }
  assert (Hend : Str.endswith p "/" = false).
  { unfold p. rewrite endswith_slash_app by by apply entry_name_nonempty.
    by apply entry_name_endswith. }
  assert (Hstep : OsPath.join2 p (test_component test)
                  = (p +:+ (if test then "/test" else "")) +:+ "/").
  { unfold OsPath.join2. apply String.eqb_neq in Hne. rewrite Hne, Hend.
    destruct test; simpl; by rewrite !str_app_assoc. }
  rewrite Hstep, join2_after_dir by done.
  unfold p. destruct test; simpl; by rewrite !str_app_assoc.
Qed.

Lemma table_posix_names (t : table) :
  forallb (λ e, forallb entry_name (snd e)) t = true →
  posix_names (table_os t).
Proof.
  intros Hall dir entries Hls. simpl in Hls. unfold table_listdir in Hls.
  destruct (List.find _ t) as [e|] eqn:E; [|done].
  injection Hls as <-. apply find_some in E as [Hin _].
  pose proof (proj1 (forallb_forall _ _) Hall e Hin) as He. simpl in He.
  apply Forall_forall. intros s Hs%list_elem_of_In.
  by apply (proj1 (forallb_forall _ _) He).
Qed.

(** C6. After a successful construction on a file system with POSIX entry
    names, the element of [get_paths] at every index is the root, the class
    name, [test/] for the test split, and the file name, joined by
    separators; the class name is the string that [os.listdir] gave for a
    directory of the root, unchanged. *)
Theorem paths_reconstructed (os : OS) (d : string) (e : exts_arg)
    (ds : DataSet) (test : bool) :
  posix_names os →
  __init__ os d e = Some ds →
  ∃ names, listdir os (in_dir ds) = Some names
    ∧ ∀ (i : nat) f c,
        split_filenames ds test !! i = Some f →
        split_numbers ds test !! i = Some c →
        ∃ name,
          py_getitem (class_names ds) c = Some name
          ∧ name ∈ names
          ∧ isdir os (OsPath.join (in_dir ds) [name]) = true
          ∧ get_paths ds test !! i
            = Some (Some (dir_prefix (in_dir ds) +:+ name +:+ "/"
                          +:+ test_component test +:+ f)).
Proof.
  intros Hposix Hinit.
  destruct (init_spec _ _ _ _ Hinit) as (Hinv & Hd & _ & names & Hls & Hcn).
  rewrite <- Hd in Hls, Hcn. exists names. split; [done|].
  intros i f c Hf Hc.
  assert (Hz : zip (split_filenames ds test) (split_numbers ds test) !! i
               = Some (f, c)) by by apply lookup_zip_Some.
  assert (Hrec : (f, c) ∈ zip (split_filenames ds test)
                            (split_numbers ds test))
    by (apply list_elem_of_lookup; by exists i).
  apply (inv_record_iff os) in Hrec as (j & name & Hj & -> & Hin); [|done].
  assert (Hname : name ∈ class_names ds)
    by (apply list_elem_of_lookup; by exists j).
  rewrite Hcn in Hname. apply list_elem_of_In, filter_In in Hname as [Hn Hdir].
  apply list_elem_of_In in Hn.
  assert (Hget : py_getitem (class_names ds) (Z.of_nat j) = Some name).
  { rewrite py_getitem_nonneg by lia. by rewrite Nat2Z.id. }
  exists name. split; [done|]. split; [done|]. split; [done|].
  rewrite get_paths_unfold, list_lookup_fmap, Hz. simpl. rewrite Hget. simpl.
  do 2 f_equal. apply join_path.
  - by apply (proj1 (Forall_forall _ _) (Hposix _ _ Hls)).
  - apply elem_of_listed in Hin as (entries & Hle & Hfe & _).
    apply entry_name_startswith.
    by apply (proj1 (Forall_forall _ _) (Hposix _ _ Hle)).
Qed.

Lemma paths_reconstructed_witness :
  get_paths sky_ds true !! 0%nat = Some (Some "/data/cirrus/test/t.jpg").
Proof.
  destruct (paths_reconstructed (table_os sky_fs) "/data" (ExtTuple [".jpg"])
              sky_ds true (table_posix_names sky_fs eq_refl) eq_refl)
    as (names & _ & H).
  destruct (H 0%nat "t.jpg" 0 eq_refl eq_refl) as (name & Hn & _ & _ & Hp).
  injection Hn as <-. exact Hp.
Defined.

(** ** Missing directories *)






(** ** Which entries the scan keeps *)

Lemma endswith_any_iff (s : string) (t : list string) :
  Str.endswith_any s t = true ↔ ∃ ext stem, ext ∈ t ∧ s = stem +:+ ext.
Proof.
  unfold Str.endswith_any. rewrite existsb_exists. split.
  - intros (ext & Hin & [stem ->]%endswith_inv).
    exists ext, stem. by rewrite list_elem_of_In.
  - intros (ext & stem & Hin & ->). exists ext.
    rewrite <- list_elem_of_In. split; [done | apply endswith_app].
Qed.

(** C10. In an existing directory the scan keeps every entry whose
    lower-cased name ends with an accepted extension, whatever kind of
    entry it is; so after a construction, a sub-directory of a class
    directory (or of its [test] directory) with such a name is a file
    record of that class. *)
Theorem scan_keeps_directories (os : OS) (d : string) (e : exts_arg)
    (ds : DataSet) (k : nat) (name : string) (test : bool)
    (entries : list string) (f : string) :
  __init__ os d e = Some ds →
  class_names ds !! k = Some name →
  path_exists os (split_dir ds test name) = true →
  listdir os (split_dir ds test name) = Some entries →
  f ∈ entries →
  Str.endswith_any (Str.lower f) (exts ds) = true →
  isdir os (OsPath.join (split_dir ds test name) [f]) = true →
  (∀ self dir listing g,
     path_exists os dir = true →
     listdir os dir = Some listing →
     g ∈ listing →
     Str.endswith_any (Str.lower g) (exts self) = true →
     ∃ found, _get_filenames os self dir = Some found ∧ g ∈ found)
  ∧ (f, Z.of_nat k) ∈ zip (split_filenames ds test) (split_numbers ds test).
Proof.
  intros Hinit Hk Hex Hls Hf Hext _.
  assert (Hscan : ∀ self dir listing g,
            path_exists os dir = true →
            listdir os dir = Some listing →
            g ∈ listing →
            Str.endswith_any (Str.lower g) (exts self) = true →
            ∃ found, _get_filenames os self dir = Some found ∧ g ∈ found).
  { intros self dir listing g Hex' Hls' Hg Hext'. eexists.
    split; [by apply get_filenames_exists|].
    apply list_elem_of_In, filter_In. by rewrite <- list_elem_of_In. }
  split; [exact Hscan|].
  destruct (init_spec _ _ _ _ Hinit) as (Hinv & _).
  apply (inv_record_iff os); [done|]. exists k, name.
  split; [done|]. split; [done|].
  destruct (Hscan ds _ _ f Hex Hls Hf Hext) as (found & Hfound & Hin).
  unfold listed. by rewrite Hfound.
Qed.

Lemma nested_init :
  __init__ (table_os nested_fs) "/data" (ExtTuple [".jpg"]) = Some nested_ds.
Proof. reflexivity. Qed.

Lemma scan_keeps_directories_witness :
  isdir (table_os nested_fs) "/data/nimbus/x.jpg" = true
  ∧ ("x.jpg", 0) ∈ zip (filenames nested_ds) (class_numbers nested_ds).
Proof.
  split; [reflexivity|].
  apply (scan_keeps_directories (table_os nested_fs) "/data"
           (ExtTuple [".jpg"]) nested_ds 0%nat "nimbus" false
           ["x.jpg"; "y.jpg"] "x.jpg");
    try reflexivity.
  apply list_elem_of_here.
Defined.

(** ** The default extension *)

(** C4, at the default [exts='.jpg']: the string is iterated character by
    character, so the accepted suffixes are the four characters of
    [".jpg"], and in [sky_fs] the file [notes.png] is indexed as an image
    of class [cirrus]. *)
Theorem default_exts_accepts_png :
  lower_exts default_exts = ["."; "j"; "p"; "g"]
  ∧ __init__ (table_os sky_fs) "/data" default_exts = Some sky_default_ds
  ∧ "notes.png" ∈ filenames sky_default_ds
  ∧ Str.endswith (Str.lower "notes.png") ".jpg" = false
  ∧ __init__ (table_os sky_fs) "/data" (ExtTuple [".jpg"]) = Some sky_ds
  ∧ "notes.png" ∉ filenames sky_ds.
Proof.
  split; [reflexivity|]. split; [reflexivity|]. split.
  { do 2 apply list_elem_of_further. apply list_elem_of_here. }
  split; [reflexivity|]. split; [reflexivity|].
  intros H. simpl in H.
  repeat (apply elem_of_cons in H as [H|H]; [discriminate|]).
  by apply elem_of_nil in H.
Qed.

(** ** The export *)

Section export.

Import Exporter.

Variable env : Env.

Lemma copies_snoc_copy (l : list event) (src dst : string) :
  copies (l ++ [Copy src dst]) = copies l ++ [(src, dst)].
Proof. unfold copies. by rewrite omap_app. Qed.

Lemma copies_snoc_makedirs (l : list event) (dir : string) :
  copies (l ++ [Makedirs dir]) = copies l.
Proof. unfold copies. rewrite omap_app. simpl. by rewrite app_nil_r. Qed.

Lemma copies_snoc_print (l : list event) (msg : string) :
  copies (l ++ [Print msg]) = copies l.
Proof. unfold copies. rewrite omap_app. simpl. by rewrite app_nil_r. Qed.

Lemma run_plan_all_ok (pl : list (string * string)) :
  Forall (λ p, copy_ok env p.1 p.2 = true) pl →
  run_plan env pl = (inr (), pl).
Proof.
  induction 1 as [|[s d] pl Hp _ IH]; [done|].
  simpl in Hp. cbn [run_plan]. by rewrite Hp, IH.
Qed.

Lemma run_plan_first_failure (before after : list (string * string))
    (src dst : string) :
  Forall (λ p, copy_ok env p.1 p.2 = true) before →
  copy_ok env src dst = false →
  run_plan env (before ++ (src, dst) :: after)
  = (inl (CopyFailed src dst), before ++ [(src, dst)]).
Proof.
  intros Hok Hbad. induction Hok as [|[s d] pl Hp _ IH].
  - cbn [app run_plan]. by rewrite Hbad.
  - simpl in Hp. cbn [app run_plan]. fold (@app (string * string)).
    by rewrite Hp, IH.
Qed.

Lemma run_plan_app (p1 p2 : list (string * string)) :
  run_plan env (p1 ++ p2)
  = match (run_plan env p1).1 with
    | inr _ => ((run_plan env p2).1,
                (run_plan env p1).2 ++ (run_plan env p2).2)
    | inl e => run_plan env p1
    end.
Proof.
  induction p1 as [|[s d] p1 IH]; [simpl; by destruct (run_plan env p2)|].
  cbn [app run_plan]. fold (@app (string * string)).
  destruct (copy_ok env s d); [|done]. rewrite IH.
  by destruct (run_plan env p1) as [[e|[]] a].
Qed.

(** The first loop of [_copy_files]: no copy, and no failure when
    [os.makedirs] never fails. *)
Lemma makedirs_loop (dirs : list string) (w : World) :
  (∀ dir, makedirs_ok env dir = true) →
  ∃ w', for_each dirs (λ dir,
          present <- path_exists dir ;;
          if negb present then makedirs env dir else ret ())%io w
        = (inr (), w')
    ∧ copies (log w') = copies (log w).
Proof.
  intros Hok. revert w. induction dirs as [|dir dirs IH]; intros w.
  - by exists w.
  - cbn [for_each]. unfold bind at 1. unfold bind at 1.
    unfold path_exists at 1. destruct (exists_now w dir); cbn [negb].
    + unfold ret at 1. apply IH.
    + unfold makedirs, bind, emit. rewrite Hok.
      edestruct IH as (w' & -> & Hc). eexists. split; [reflexivity|].
      rewrite Hc. simpl. apply copies_snoc_makedirs.
Qed.

(** The second loop of [_copy_files], over items that raise no
    [IndexError]. *)
Lemma copy_loop (dirs : list string) (items : list (option string * Z))
    (pl : list (string * string)) (w : World) :
  Forall2 (λ it p, it.1 = Some p.1 ∧ py_getitem dirs it.2 = Some p.2)
    items pl →
  ∃ w', for_each items (λ '(src_gen, cls),
          src <- index src_gen ;;
          dst <- index (py_getitem dirs cls) ;;
          copy env src dst)%io w
        = ((run_plan env pl).1, w')
    ∧ copies (log w') = copies (log w) ++ (run_plan env pl).2.
Proof.
  intros H. revert w.
  induction H as [|[g c] [s d] items pl [Hg Hd] _ IH]; intros w.
  - exists w. by rewrite app_nil_r.
  - simpl in Hg, Hd. subst g. cbn [for_each run_plan].
    unfold bind at 1. unfold bind at 1. unfold index at 1. unfold ret at 1.
    rewrite Hd. unfold bind at 1. unfold index at 1, ret at 1.
    unfold copy, bind, emit. destruct (copy_ok env s d).
    + unfold ret at 1.
      edestruct IH as (w' & Hrun & Hc). unfold bind in Hrun. rewrite Hrun.
      eexists. split; [reflexivity|].
      rewrite Hc. simpl. by rewrite copies_snoc_copy, <- app_assoc.
    + eexists. split; [reflexivity|]. simpl. apply copies_snoc_copy.
Qed.

End export.

Lemma zip_fmap_zip {A B C} (g : A * B → C) (l : list A) (k : list B) :
  zip (g <$> zip l k) k = (λ p, (g p, p.2)) <$> zip l k.
Proof.
  revert k. induction l as [|x l IH]; intros [|y k]; [done..|].
  simpl. f_equal. apply IH.
Qed.

(** With class numbers in range, the items of the copy loop are the
    copies of the plan. *)
Lemma plan_items (ds : DataSet) (test : bool) (dst_dir : string) :
  Forall (λ c, 0 ≤ c < Z.of_nat (length (class_names ds)))
    (split_numbers ds test) →
  Forall2 (λ it p, it.1 = Some p.1
                   ∧ py_getitem (Exporter.class_dirs ds dst_dir) it.2
                     = Some p.2)
    (zip (get_paths ds test) (split_numbers ds test))
    (plan ds test dst_dir).
Proof.
  intros Hr. rewrite get_paths_unfold, zip_fmap_zip. unfold plan.
  apply Forall2_fmap, Forall_Forall2_diag, Forall_forall.
  intros [f c] Hfc. apply elem_of_zip_r in Hfc.
  pose proof (proj1 (Forall_forall _ _) Hr _ Hfc) as Hc. simpl in Hc.
  destruct (py_getitem_Some_range (class_names ds) c Hc) as [name Hname].
  destruct (py_getitem_Some_range (Exporter.class_dirs ds dst_dir) c)
    as [dir Hdir].
  { unfold Exporter.class_dirs. by rewrite length_fmap. }
  simpl. by rewrite Hname, Hdir.
Qed.

Lemma copy_split_run (env : Exporter.Env) (ds : DataSet) (test : bool)
    (dst_dir : string) (w : Exporter.World) :
  Forall (λ c, 0 ≤ c < Z.of_nat (length (class_names ds)))
    (split_numbers ds test) →
  (∀ dir, Exporter.makedirs_ok env dir = true) →
  ∃ w', Exporter._copy_files env ds (get_paths ds test) dst_dir
          (split_numbers ds test) w
        = ((run_plan env (plan ds test dst_dir)).1, w')
    ∧ Exporter.copies (Exporter.log w')
      = Exporter.copies (Exporter.log w)
        ++ (run_plan env (plan ds test dst_dir)).2.
Proof.
  intros Hr Hok. unfold Exporter._copy_files. unfold Exporter.bind at 1.
  destruct (makedirs_loop env (Exporter.class_dirs ds dst_dir) w Hok)
    as (w1 & -> & Hc1).
  destruct (copy_loop env _ _ _ w1 (plan_items ds test dst_dir Hr))
    as (w2 & -> & Hc2).
  exists w2. split; [done|]. by rewrite Hc2, Hc1.
Qed.

(** The whole export, when [os.makedirs] never fails: it comes to the run
    of its plan. *)
Lemma copy_files_run (env : Exporter.Env) (ds : DataSet)
    (train_dir test_dir : string) (w : Exporter.World) :
  (∀ test, Forall (λ c, 0 ≤ c < Z.of_nat (length (class_names ds)))
             (split_numbers ds test)) →
  (∀ dir, Exporter.makedirs_ok env dir = true) →
  ∃ w', Exporter.copy_files env ds train_dir test_dir w
        = ((run_plan env (export_plan ds train_dir test_dir)).1, w')
    ∧ Exporter.copies (Exporter.log w')
      = Exporter.copies (Exporter.log w)
        ++ (run_plan env (export_plan ds train_dir test_dir)).2.
Proof.
  intros Hr Hok. unfold Exporter.copy_files, export_plan.
  rewrite run_plan_app. unfold Exporter.bind at 1.
  destruct (copy_split_run env ds false train_dir w (Hr false) Hok)
    as (w1 & H1 & Hc1).
  change (class_numbers ds) with (split_numbers ds false). rewrite H1.
  destruct (run_plan env (plan ds false train_dir)) as [[e|[]] a1];
    simpl in *; [by exists w1|].
  unfold Exporter.bind at 1. unfold Exporter.print at 1, Exporter.emit at 1.
  unfold Exporter.bind at 1.
  edestruct (copy_split_run env ds true test_dir) as (w2 & H2 & Hc2);
    [exact (Hr true) | exact Hok |].
  change (class_numbers_test ds) with (split_numbers ds true). rewrite H2.
  simpl in Hc2. rewrite copies_snoc_print, Hc1 in Hc2.
  destruct (run_plan env (plan ds true test_dir)) as [[e|[]] a2];
    simpl in *.
  - exists w2. split; [done|]. by rewrite Hc2, app_assoc.
  - eexists. split; [reflexivity|]. simpl.
    by rewrite copies_snoc_print, Hc2, app_assoc.
Qed.

(** C9, as the code has it. The copies are made in index order, the
    training split first. When [os.makedirs] does not fail, the first
    copy that fails ends the export: its exception leaves [copy_files], the
    copies attempted are those before it and itself, and none after it. *)
Theorem export_stops_at_first_failure (os : OS) (d : string) (e : exts_arg)
    (ds : DataSet) (env : Exporter.Env) (train_dir test_dir : string)
    (w : Exporter.World) (before after : list (string * string))
    (src dst : string) :
  __init__ os d e = Some ds →
  (∀ dir, Exporter.makedirs_ok env dir = true) →
  export_plan ds train_dir test_dir = before ++ (src, dst) :: after →
  Forall (λ p, Exporter.copy_ok env p.1 p.2 = true) before →
  Exporter.copy_ok env src dst = false →
  (Exporter.copy_files env ds train_dir test_dir w).1
  = inl (Exporter.CopyFailed src dst)
  ∧ Exporter.copies
      (Exporter.log (Exporter.copy_files env ds train_dir test_dir w).2)
    = Exporter.copies (Exporter.log w) ++ before ++ [(src, dst)].
Proof.
  intros Hinit Hok Hplan Hbefore Hbad.
  destruct (init_spec _ _ _ _ Hinit) as (Hinv & _).
  pose proof Hinv as [Hn _].
  destruct (copy_files_run env ds train_dir test_dir w) as (w' & Hrun & Hc);
    [|done|].
  { intros test. rewrite <- Hn. by apply (inv_numbers_range os). }
  rewrite Hplan, (run_plan_first_failure env before after src dst)
    in Hrun, Hc by done.
  by rewrite Hrun.
Qed.

(** When no copy fails, every copy of the plan is made and the export
    returns. *)
Lemma export_completes (os : OS) (d : string) (e : exts_arg)
    (ds : DataSet) (env : Exporter.Env) (train_dir test_dir : string)
    (w : Exporter.World) :
  __init__ os d e = Some ds →
  (∀ dir, Exporter.makedirs_ok env dir = true) →
  Forall (λ p, Exporter.copy_ok env p.1 p.2 = true)
    (export_plan ds train_dir test_dir) →
  (Exporter.copy_files env ds train_dir test_dir w).1 = inr ()
  ∧ Exporter.copies
      (Exporter.log (Exporter.copy_files env ds train_dir test_dir w).2)
    = Exporter.copies (Exporter.log w) ++ export_plan ds train_dir test_dir.
Proof.
  intros Hinit Hok Hall.
  destruct (init_spec _ _ _ _ Hinit) as (Hinv & _).
  pose proof Hinv as [Hn _].
  destruct (copy_files_run env ds train_dir test_dir w) as (w' & Hrun & Hc);
    [|done|].
  { intros test. rewrite <- Hn. by apply (inv_numbers_range os). }
  rewrite (run_plan_all_ok env _ Hall) in Hrun, Hc.
  by rewrite Hrun.
Qed.

Lemma export_stops_at_first_failure_witness :
  (Exporter.copy_files (unreadable ["/data/cirrus/B.JPG"]) sky_ds
     "/out/train/" "/out/test/" blank_disk).1
  = inl (Exporter.CopyFailed "/data/cirrus/B.JPG" "/out/train/cirrus/")
  ∧ Exporter.copies
      (Exporter.log
         (Exporter.copy_files (unreadable ["/data/cirrus/B.JPG"]) sky_ds
            "/out/train/" "/out/test/" blank_disk).2)
    = [("/data/cirrus/a.jpg", "/out/train/cirrus/");
       ("/data/cirrus/B.JPG", "/out/train/cirrus/")].
Proof.
  apply (export_stops_at_first_failure (table_os sky_fs) "/data"
           (ExtTuple [".jpg"]) sky_ds (unreadable ["/data/cirrus/B.JPG"])
           "/out/train/" "/out/test/" blank_disk
           [("/data/cirrus/a.jpg", "/out/train/cirrus/")]
           [("/data/cumulus/c.jpg", "/out/train/cumulus/");
            ("/data/cirrus/test/t.jpg", "/out/test/cirrus/")]).
  - reflexivity.
  - reflexivity.
  - reflexivity.
  - by repeat constructor.
  - reflexivity.
Defined.

(** C9, as the specification states it, fails: with two unreadable files,
    the export of [sky_ds] raises for the first of them alone, after a
    single copy; the other three copies of its plan are not attempted, and
    the second unreadable file is reported nowhere. *)
Lemma export_counterexample :
  (Exporter.copy_files
     (unreadable ["/data/cirrus/a.jpg"; "/data/cirrus/test/t.jpg"])
     sky_ds "/out/train/" "/out/test/" blank_disk).1
  = inl (Exporter.CopyFailed "/data/cirrus/a.jpg" "/out/train/cirrus/")
  ∧ Exporter.copies
      (Exporter.log
         (Exporter.copy_files
            (unreadable ["/data/cirrus/a.jpg"; "/data/cirrus/test/t.jpg"])
            sky_ds "/out/train/" "/out/test/" blank_disk).2)
    = [("/data/cirrus/a.jpg", "/out/train/cirrus/")]
  ∧ export_plan sky_ds "/out/train/" "/out/test/"
    = [("/data/cirrus/a.jpg", "/out/train/cirrus/");
       ("/data/cirrus/B.JPG", "/out/train/cirrus/");
       ("/data/cumulus/c.jpg", "/out/train/cumulus/");
       ("/data/cirrus/test/t.jpg", "/out/test/cirrus/")].
Proof. repeat split; reflexivity. Qed.

(** ** The cache *)

Lemma cache_hit {T A} (st : CacheStore T) (cache_path : string)
    (fn : A → option T) (args : A) (obj : T) :
  pickles st !! cache_path = Some obj →
  cache st cache_path fn args = Some (obj, st).
Proof. intros H. unfold cache. by rewrite H. Qed.

Lemma cache_persists {T A} (st st' : CacheStore T) (cache_path : string)
    (fn : A → option T) (args : A) (obj : T) :
  cache st cache_path fn args = Some (obj, st') →
  pickles st' !! cache_path = Some obj.
Proof.
  unfold cache. destruct (pickles st !! cache_path) as [old|] eqn:E.
  - intros [= <- <-]. exact E.
  - destruct (fn args) as [new|]; [|done]. simpl. intros [= <- <-]. simpl.
    apply lookup_insert_eq.
Qed.

(** C1. After a call of [load_cached] that returned, a second call with the
    same [cache_path] and [in_dir] returns the same [DataSet], hence the
    same training and test triples, whatever the file system answers by
    then; the store is unchanged and the constructor is not invoked: the
    count of constructions stays, and any construction function, even one
    that raises, gives the same result. In general, where a value is
    persisted at [cache_path], [load_cached] returns it and leaves the store
    as it is, for every file system. *)
Theorem load_cached_deterministic (os1 os2 : OS) (st0 st1 : CacheStore DataSet)
    (cache_path in_dir0 : string) (ds : DataSet) :
  load_cached os1 st0 cache_path in_dir0 = Some (ds, st1) →
  load_cached os2 st1 cache_path in_dir0 = Some (ds, st1)
  ∧ (∀ ds2 st2,
       load_cached os2 st1 cache_path in_dir0 = Some (ds2, st2) →
       get_training_set ds2 = get_training_set ds
       ∧ get_test_set ds2 = get_test_set ds
       ∧ builds st2 = builds st1)
  ∧ (∀ (fn : string → option DataSet) args,
       cache st1 cache_path fn args = Some (ds, st1))
  ∧ (∀ os st obj,
       pickles st !! cache_path = Some obj →
       load_cached os st cache_path in_dir0 = Some (obj, st)).
Proof.
  intros H. unfold load_cached in *. apply cache_persists in H.
  assert (Hhit : ∀ (fn : string → option DataSet) args,
            cache st1 cache_path fn args = Some (ds, st1))
    by (intros fn args; by apply cache_hit).
  split; [apply Hhit|]. split; [|split; [exact Hhit|]].
  - intros ds2 st2. rewrite Hhit. by intros [= <- <-].
  - intros os st obj Hobj. by apply cache_hit.
Qed.

Lemma load_cached_deterministic_witness :
  load_cached (table_os sky_fs) empty_store "/data/clouds-images.pkl" "/data"
  = Some (sky_default_ds, sky_store)
  ∧ __init__ (table_os []) "/data" default_exts = None
  ∧ load_cached (table_os []) sky_store "/data/clouds-images.pkl" "/data"
    = Some (sky_default_ds, sky_store).
Proof.
  split; [reflexivity|]. split; [reflexivity|].
  apply (proj1 (load_cached_deterministic (table_os sky_fs) (table_os [])
                  empty_store sky_store "/data/clouds-images.pkl" "/data"
                  sky_default_ds eq_refl)).
Defined.

(** * Further properties *)

(** ** [one_hot_encoded] outside the range [0, num_classes) *)

Lemma py_getitem_None {A} (l : list A) (i : Z) :
  py_getitem l i = None
  ↔ i < - Z.of_nat (length l) ∨ Z.of_nat (length l) ≤ i.
Proof.
  unfold py_getitem. destruct (decide (0 ≤ i)) as [Hi|Hi].
  - rewrite lookup_ge_None. lia.
  - destruct (decide (- Z.of_nat (length l) ≤ i)) as [Hn|Hn].
    + rewrite lookup_ge_None. lia.
    + split; [lia | done].
Qed.

Lemma py_getitem_wrap {A} (l : list A) (i : Z) :
  - Z.of_nat (length l) ≤ i < Z.of_nat (length l) →
  py_getitem l i = l !! Z.to_nat (i mod Z.of_nat (length l)).
Proof.
  intros Hi. unfold py_getitem. destruct (decide (0 ≤ i)) as [Hpos|Hneg].
  - by rewrite Z.mod_small by lia.
  - rewrite decide_True by lia. f_equal. f_equal.
    rewrite <- (Z.mod_add i 1) by lia. rewrite Z.mod_small; lia.
Qed.

(** With [num_classes] given, [one_hot_encoded] raises exactly when
    [num_classes] is negative or some class number is outside
    [-num_classes, num_classes). *)
Theorem one_hot_encoded_raises_iff (cs : list Z) (n : Z) :
  one_hot_encoded cs (Some n) = None
  ↔ n < 0 ∨ ∃ c, c ∈ cs ∧ (c < - n ∨ n ≤ c).
Proof.
  unfold one_hot_encoded. simpl. destruct (decide (n < 0)) as [Hn|Hn].
  - split; [by left | done].
  - rewrite mapM_None, Exists_exists. split.
    + intros (c & Hc & Hnone). right. exists c. split; [done|].
      apply py_getitem_None in Hnone. rewrite eye_length in Hnone. lia.
    + intros [?|(c & Hc & Hout)]; [lia|]. exists c. split; [done|].
      apply py_getitem_None. rewrite eye_length. lia.
Qed.

(** A negative class number counts from the last class: for class numbers
    in [-num_classes, num_classes) the row of [c] is the one-hot row of
    [c mod num_classes]. *)
Theorem one_hot_encoded_wraps (cs : list Z) (n : Z) :
  0 ≤ n →
  Forall (λ c, - n ≤ c < n) cs →
  ∃ rows, one_hot_encoded cs (Some n) = Some rows
    ∧ Forall2 (λ c row, is_one_hot n (c mod n) row) cs rows.
Proof.
  intros Hn Hcs.
  exists ((λ c, unit_row (Z.to_nat n) (Z.to_nat (c mod n))) <$> cs). split.
  - unfold one_hot_encoded. simpl. rewrite decide_False by lia.
    apply mapM_Some, Forall2_fmap_r, Forall_Forall2_diag.
    eapply Forall_impl; [exact Hcs|]. intros c Hc. cbv beta in *.
    assert (0 ≤ c mod n < n) by (apply Z.mod_pos_bound; lia).
    rewrite py_getitem_wrap by (rewrite eye_length; lia).
    rewrite eye_length, Z2Nat.id by lia.
    rewrite eye_lookup, eye_row_unit by lia. reflexivity.
  - apply Forall2_fmap_r, Forall_Forall2_diag.
    eapply Forall_impl; [exact Hcs|]. intros c Hc. cbv beta in *.
    apply unit_row_is_one_hot. apply Z.mod_pos_bound. lia.
Qed.

Lemma one_hot_encoded_wraps_witness :
  one_hot_encoded [-1; 0; -3] (Some 3)
  = Some [[0%Q; 0%Q; 1%Q]; [1%Q; 0%Q; 0%Q]; [1%Q; 0%Q; 0%Q]]
  ∧ ∃ rows, one_hot_encoded [-1; 0; -3] (Some 3) = Some rows
      ∧ Forall2 (λ c row, is_one_hot 3 (c mod 3) row) [-1; 0; -3] rows.
Proof.
  split; [reflexivity|].
  apply (one_hot_encoded_wraps [-1; 0; -3] 3); [lia|].
  repeat constructor; lia.
Defined.



(** ** When the constructor raises, and what it discovers *)

Lemma get_filenames_None (os : OS) (self : DataSet) (dir : string) :
  _get_filenames os self dir = None
  ↔ path_exists os dir = true ∧ listdir os dir = None.
Proof.
  unfold _get_filenames. destruct (path_exists os dir).
  - destruct (listdir os dir); simpl.
    + split; [done | by intros [_ ?]].
    + by split.
  - split; [done | by intros [? _]].
Qed.

Lemma split_dir_scanned (self : DataSet) (test : bool) (name : string) :
  split_dir self test name = scanned_dir (in_dir self) test name.
Proof. by destruct test. Qed.

Lemma init_body_None (os : OS) (self : DataSet) (name : string) :
  init_body os self name = None
  ↔ isdir os (OsPath.join (in_dir self) [name]) = true
    ∧ ∃ test, path_exists os (scanned_dir (in_dir self) test name) = true
        ∧ listdir os (scanned_dir (in_dir self) test name) = None.
Proof.
  pose proof (get_filenames_None os self
                (scanned_dir (in_dir self) false name)) as Htrain.
  pose proof (get_filenames_None os self
                (scanned_dir (in_dir self) true name)) as Htest.
  unfold init_body.
  change (OsPath.join (OsPath.join (in_dir self) [name]) ["test"])
    with (scanned_dir (in_dir self) true name).
  change (OsPath.join (in_dir self) [name])
    with (scanned_dir (in_dir self) false name).
  destruct (isdir os (scanned_dir (in_dir self) false name));
    [|split; [done | by intros [? _]]].
  destruct (_get_filenames os self (scanned_dir (in_dir self) false name))
    as [tr|]; cbn [mbind option_bind].
  - destruct (_get_filenames os self (scanned_dir (in_dir self) true name))
      as [te|]; cbn [mbind option_bind].
    + split; [done|]. intros (_ & [] & Hex & Hls).
      * discriminate (proj2 Htest (conj Hex Hls)).
      * discriminate (proj2 Htrain (conj Hex Hls)).
    + split; [|done]. intros _. split; [done|]. exists true.
      by apply Htest.
  - split; [|done]. intros _. split; [done|]. exists false. by apply Htrain.
Qed.

Lemma init_body_in_dir (os : OS) (self self' : DataSet) (name : string) :
  init_body os self name = Some self' → in_dir self' = in_dir self.
Proof.
  unfold init_body. destruct (isdir os _); [|by intros [= <-]].
  destruct (_get_filenames os self (OsPath.join (in_dir self) [name]));
    [|done].
  cbn [mbind option_bind].
  destruct (_get_filenames os self
              (OsPath.join (OsPath.join (in_dir self) [name]) ["test"]));
    [|done].
  cbn [mbind option_bind]. by intros [= <-].
Qed.

Lemma init_loop_None (os : OS) (names : list string) (self : DataSet) :
  init_loop os self names = None
  ↔ ∃ name test, name ∈ names
      ∧ isdir os (OsPath.join (in_dir self) [name]) = true
      ∧ path_exists os (scanned_dir (in_dir self) test name) = true
      ∧ listdir os (scanned_dir (in_dir self) test name) = None.
Proof.
  revert self. induction names as [|name rest IH]; intros self.
  - split; [done|]. by intros (? & ? & ?%elem_of_nil & _).
  - cbn [init_loop].
    destruct (init_body os self name) as [self'|] eqn:Hbody; simpl.
    + rewrite IH, (init_body_in_dir _ _ _ _ Hbody). split.
      * intros (nm & test & Hin & H). exists nm, test.
        split; [by right | done].
      * intros (nm & test & Hin & Hdir & Hex & Hls).
        apply elem_of_cons in Hin as [->|Hin]; [|by exists nm, test].
        assert (init_body os self name = None); [|congruence].
        apply init_body_None. split; [done|]. by exists test.
    + split; [|done]. intros _.
      apply init_body_None in Hbody as (Hdir & test & Hex & Hls).
      exists name, test. split; [by left | done].
Qed.

(** The constructor raises exactly when the root cannot be listed, or when
    for some directory of the root the class directory or its [test]
    directory exists and cannot be listed. *)
Theorem init_raises_iff (os : OS) (d : string) (e : exts_arg) :
  __init__ os d e = None
  ↔ listdir os (abspath os d) = None
    ∨ ∃ names name test,
        listdir os (abspath os d) = Some names
        ∧ name ∈ names
        ∧ isdir os (OsPath.join (abspath os d) [name]) = true
        ∧ path_exists os (scanned_dir (abspath os d) test name) = true
        ∧ listdir os (scanned_dir (abspath os d) test name) = None.
Proof.
  unfold __init__. change (in_dir (init_fields os d e)) with (abspath os d).
  destruct (listdir os (abspath os d)) as [names|]; simpl.
  - rewrite init_loop_None. split.
    + intros (name & test & H). right. by exists names, name, test.
    + intros [?|(names' & name & test & [= <-] & H)]; [done|].
      by exists name, test.
  - split; [by left | done].
Qed.

(** The classes are the directories among the entries of the root, in
    listing order: the [k]-th of them has class number [k]; the other
    entries of the root are ignored. The root is stored as an absolute path
    and the extensions in lower case. *)
Theorem class_discovery (os : OS) (d : string) (e : exts_arg)
    (ds : DataSet) :
  __init__ os d e = Some ds →
  in_dir ds = abspath os d
  ∧ exts ds = lower_exts e
  ∧ ∃ names, listdir os (abspath os d) = Some names
      ∧ class_names ds
        = List.filter (λ n, isdir os (OsPath.join (abspath os d) [n])) names
      ∧ num_classes ds = Z.of_nat (length (class_names ds))
      ∧ ∀ name, name ∈ class_names ds
          ↔ name ∈ names
            ∧ isdir os (OsPath.join (abspath os d) [name]) = true.
Proof.
  intros Hinit.
  destruct (init_spec _ _ _ _ Hinit) as ([Hn _] & Hd & He & names & Hls & Hc).
  split; [done|]. split; [done|]. exists names.
  split; [done|]. split; [done|]. split; [done|].
  intros name. by rewrite Hc, !list_elem_of_In, filter_In.
Qed.

Lemma class_discovery_witness :
  ∃ names, listdir (table_os sky_fs) "/data" = Some names
    ∧ class_names sky_ds
      = List.filter (λ n, isdir (table_os sky_fs) (OsPath.join "/data" [n]))
          names
    ∧ "README.md" ∈ names
    ∧ "README.md" ∉ class_names sky_ds.
Proof.
  destruct (class_discovery (table_os sky_fs) "/data" (ExtTuple [".jpg"])
              sky_ds eq_refl) as (_ & _ & names & Hls & Hc & _ & Hiff).
  exists names. split; [exact Hls|]. split; [exact Hc|].
  injection Hls as <-. split.
  - apply list_elem_of_further, list_elem_of_here.
  - intros [_ Hdir]%Hiff. discriminate Hdir.
Defined.

Lemma init_loop_no_directory (os : OS) (names : list string)
    (self : DataSet) :
  Forall (λ n, isdir os (OsPath.join (in_dir self) [n]) = false) names →
  init_loop os self names = Some self.
Proof.
  induction 1 as [|n names Hn _ IH]; [done|].
  cbn [init_loop]. unfold init_body. by rewrite Hn.
Qed.

(** A root without directories gives an empty data-set: no class, no file,
    and both accessors return three empty sequences. *)
Theorem no_directory_no_class (os : OS) (d : string) (e : exts_arg)
    (names : list string) :
  listdir os (abspath os d) = Some names →
  Forall (λ n, isdir os (OsPath.join (abspath os d) [n]) = false) names →
  ∃ ds, __init__ os d e = Some ds
    ∧ num_classes ds = 0
    ∧ class_names ds = []
    ∧ get_training_set ds = Some ([], [], [])
    ∧ get_test_set ds = Some ([], [], []).
Proof.
  intros Hls Hfiles. exists (init_fields os d e).
  split; [|done]. unfold __init__.
  change (in_dir (init_fields os d e)) with (abspath os d).
  rewrite Hls. simpl. by apply init_loop_no_directory.
Qed.

Lemma no_directory_no_class_witness :
  ∃ ds, __init__ (table_os flat_fs) "/data" default_exts = Some ds
    ∧ num_classes ds = 0
    ∧ class_names ds = []
    ∧ get_training_set ds = Some ([], [], [])
    ∧ get_test_set ds = Some ([], [], []).
Proof.
  apply (no_directory_no_class (table_os flat_fs) "/data" default_exts
           ["README.md"; "clouds-images.pkl"]); [reflexivity|].
  by repeat constructor.
Defined.

(** ** The order of the file records *)

Lemma filter_all {A} (P : A → Prop) `{∀ x, Decision (P x)} (l : list A) :
  Forall P l → filter P l = l.
Proof.
  induction 1 as [|x l Hx _ IH]; [done|].
  by rewrite filter_cons_True, IH.
Qed.

Lemma filter_none {A} (P : A → Prop) `{∀ x, Decision (P x)} (l : list A) :
  Forall (λ x, ¬ P x) l → filter P l = [].
Proof.
  induction 1 as [|x l Hx _ IH]; [done|].
  by rewrite filter_cons_False.
Qed.

Lemma records_labels (k : Z) (ls : list (list string)) :
  Forall (λ p, k ≤ p.2) (records k ls).
Proof.
  apply Forall_forall. intros [f c] (j & l & _ & -> & _)%elem_of_records.
  simpl. lia.
Qed.

Lemma records_snd_sorted (k : Z) (ls : list (list string)) :
  StronglySorted Z.le (records k ls).*2.
Proof.
  revert k. induction ls as [|l ls IH]; intros k; [constructor|].
  cbn [records]. rewrite fmap_app. apply StronglySorted_app_2.
  - intros a b (p & -> & (f & -> & _)%list_elem_of_fmap)%list_elem_of_fmap
             (q & -> & Hq)%list_elem_of_fmap.
    pose proof (proj1 (Forall_forall _ _) (records_labels (k + 1) ls) _ Hq).
    simpl in *. lia.
  - induction l as [|f l IHl]; [constructor|].
    rewrite !fmap_cons. constructor; [exact IHl|].
    apply Forall_forall.
    intros a (p & -> & (g & -> & _)%list_elem_of_fmap)%list_elem_of_fmap.
    simpl. lia.
  - apply IH.
Qed.

Lemma records_filter (k : Z) (ls : list (list string)) (j : nat)
    (l : list string) :
  ls !! j = Some l →
  filter (λ p, p.2 = k + Z.of_nat j) (records k ls)
  = (λ f, (f, k + Z.of_nat j)) <$> l.
Proof.
  revert k j. induction ls as [|l0 ls IH]; intros k j Hj; [done|].
  cbn [records]. rewrite filter_app. destruct j as [|j]; simpl in Hj.
  - injection Hj as ->. rewrite Z.add_0_r.
    rewrite filter_all, filter_none, app_nil_r; [done|..].
    + eapply Forall_impl; [apply (records_labels (k + 1) ls)|].
      intros p Hp. simpl in *. lia.
    + apply Forall_forall. by intros p (f & -> & _)%list_elem_of_fmap.
  - replace (k + Z.of_nat (S j)) with (k + 1 + Z.of_nat j) by lia.
    rewrite filter_none, (IH (k + 1) j Hj); [done|].
    apply Forall_forall. intros p (f & -> & _)%list_elem_of_fmap.
    simpl. lia.
Qed.

(** A construction that returned has scanned every class without an
    error. *)
Lemma constructed_scans (os : OS) (d : string) (e : exts_arg)
    (ds : DataSet) (test : bool) (name : string) :
  __init__ os d e = Some ds →
  name ∈ class_names ds →
  _get_filenames os ds (split_dir ds test name)
  = Some (listed os ds test name).
Proof.
  intros Hinit Hname.
  destruct (init_spec _ _ _ _ Hinit) as (_ & Hd & _ & names & Hls & Hc).
  unfold listed.
  destruct (_get_filenames os ds (split_dir ds test name)) eqn:E; [done|].
  apply get_filenames_None in E as [Hex Hnone].
  rewrite split_dir_scanned, Hd in Hex, Hnone.
  rewrite Hc in Hname. apply list_elem_of_In, filter_In in Hname as [Hin Hdir].
  assert (__init__ os d e = None); [|congruence].
  unfold __init__. change (in_dir (init_fields os d e)) with (abspath os d).
  rewrite Hls. simpl. apply init_loop_None. exists name, test.
  by rewrite <- list_elem_of_In in Hin.
Qed.

(** In both splits the class numbers are stored in ascending order: the
    records of a class are contiguous, and the classes follow one another
    in discovery order. *)
Theorem class_numbers_sorted (os : OS) (d : string) (e : exts_arg)
    (ds : DataSet) (test : bool) :
  __init__ os d e = Some ds →
  StronglySorted Z.le (split_numbers ds test).
Proof.
  intros Hinit. destruct (init_spec _ _ _ _ Hinit) as ([_ Hsplit] & _).
  destruct (Hsplit test) as [Hlen Hzip].
  rewrite <- (snd_zip (split_filenames ds test) (split_numbers ds test))
    by lia.
  rewrite Hzip. apply records_snd_sorted.
Qed.

Lemma class_numbers_sorted_witness :
  StronglySorted Z.le (class_numbers sky_ds).
Proof.
  apply (class_numbers_sorted (table_os sky_fs) "/data" (ExtTuple [".jpg"])
           sky_ds false).
  reflexivity.
Defined.

(** The records of a split that carry class number [k] are, in order, the
    files that the scan found for the [k]-th class: no file of the class is
    dropped, none is added, and none is moved. *)
Theorem class_records (os : OS) (d : string) (e : exts_arg)
    (ds : DataSet) (test : bool) (k : nat) (name : string) :
  __init__ os d e = Some ds →
  class_names ds !! k = Some name →
  _get_filenames os ds (split_dir ds test name)
  = Some (filter (λ p, p.2 = Z.of_nat k)
            (zip (split_filenames ds test) (split_numbers ds test))).*1.
Proof.
  intros Hinit Hk. destruct (init_spec _ _ _ _ Hinit) as (Hinv & _).
  pose proof Hinv as [_ Hsplit]. destruct (Hsplit test) as [_ ->].
  rewrite <- (Z.add_0_l (Z.of_nat k)).
  rewrite (records_filter 0 _ k (listed os ds test name))
    by by rewrite list_lookup_fmap, Hk.
  rewrite <- list_fmap_compose, list_fmap_id.
  apply (constructed_scans os d e); [done|].
  apply list_elem_of_lookup. by exists k.
Qed.

Lemma class_records_witness :
  _get_filenames (table_os sky_fs) sky_ds "/data/cirrus"
  = Some (filter (λ p, p.2 = 0)
            (zip (filenames sky_ds) (class_numbers sky_ds))).*1.
Proof.
  apply (class_records (table_os sky_fs) "/data" (ExtTuple [".jpg"])
           sky_ds false 0 "cirrus"); reflexivity.
Defined.

(** ** The argument [exts] *)

Lemma nat_of_ascii_lower (a : ascii) :
  nat_of_ascii (Str.ascii_lower a)
  = if is_upper a then (nat_of_ascii a + 32)%nat else nat_of_ascii a.
Proof.
  unfold Str.ascii_lower, is_upper.
  destruct ((65 <=? nat_of_ascii a) && (nat_of_ascii a <=? 90))%nat eqn:E;
    [|done].
  apply andb_true_iff in E as [_ E%Nat.leb_le].
  apply nat_ascii_embedding. lia.
Qed.

Lemma same_letter_lower (a b : ascii) :
  same_letter a b = true ↔ Str.ascii_lower a = Str.ascii_lower b.
Proof.
  assert (Hcode : ∀ x y : ascii, x = y ↔ nat_of_ascii x = nat_of_ascii y).
  { intros x y. split; [by intros ->|]. intros E.
    by rewrite <- (ascii_nat_embedding x), <- (ascii_nat_embedding y), E. }
  rewrite (Hcode (Str.ascii_lower a)), !nat_of_ascii_lower.
  unfold same_letter, is_upper.
  rewrite !orb_true_iff, !andb_true_iff, Ascii.eqb_eq, (Hcode a b).
  rewrite !Nat.eqb_eq.
  destruct (65 <=? nat_of_ascii a)%nat eqn:Ea1;
    destruct (nat_of_ascii a <=? 90)%nat eqn:Ea2;
    destruct (65 <=? nat_of_ascii b)%nat eqn:Eb1;
    destruct (nat_of_ascii b <=? 90)%nat eqn:Eb2;
    simpl;
    repeat match goal with
           | H : (_ <=? _)%nat = true |- _ => apply Nat.leb_le in H
           | H : (_ <=? _)%nat = false |- _ => apply Nat.leb_gt in H
           end;
    intuition (try discriminate; try lia).
Qed.

Lemma caseless_eq_lower (s t : string) :
  caseless_eq s t = true ↔ Str.lower s = Str.lower t.
Proof.
  revert t. induction s as [|a s IH]; intros [|b t];
    cbn [caseless_eq Str.lower]; [done | done | done |].
  rewrite andb_true_iff, same_letter_lower, IH. split.
  - by intros [-> ->].
  - by intros [= -> ->].
Qed.

Lemma caseless_endswith_lower (f ext : string) :
  caseless_endswith f ext = Str.endswith (Str.lower f) (Str.lower ext).
Proof.
  assert (Heq : ∀ s, caseless_eq s ext
                     = String.eqb (Str.lower s) (Str.lower ext)).
  { intros s. apply Bool.eq_iff_eq_true.
    by rewrite caseless_eq_lower, String.eqb_eq. }
  induction f as [|a f IH]; cbn [caseless_endswith Str.lower Str.endswith].
  - by rewrite Heq.
  - by rewrite Heq, IH.
Qed.

Lemma caseless_endswith_iff (f ext : string) :
  caseless_endswith f ext = true
  ↔ ∃ stem suffix, f = stem +:+ suffix ∧ caseless_eq suffix ext = true.
Proof.
  induction f as [|a f IH]; cbn [caseless_endswith].
  - rewrite orb_false_r. split.
    + intros H. by exists EmptyString, EmptyString.
    + intros (stem & suffix & Hf & H).
      destruct stem; [|discriminate Hf]. by rewrite Hf.
  - rewrite orb_true_iff, IH. split.
    + intros [H|(stem & suffix & -> & H)].
      * by exists EmptyString, (String a f).
      * by exists (String a stem), suffix.
    + intros ([|c stem] & suffix & Hf & H).
      * left. by rewrite Hf.
      * right. injection Hf as -> ->. by exists stem, suffix.
Qed.

Lemma endswith_any_caseless (f : string) (t : list string) :
  Str.endswith_any (Str.lower f) (Str.lower <$> t)
  = existsb (caseless_endswith f) t.
Proof.
  unfold Str.endswith_any. induction t as [|ext t IH]; [done|].
  rewrite fmap_cons. cbn [existsb].
  by rewrite IH, caseless_endswith_lower.
Qed.

(** With a tuple of extensions and ASCII names, the scan of an existing
    directory keeps, in listing order and unchanged, exactly the entries
    that end with one of the extensions up to the case of the letters:
    the match is case-insensitive in the file name and in the extension. *)
Theorem tuple_exts_scan (os : OS) (t : list string) (self : DataSet)
    (dir : string) (entries : list string) :
  exts self = lower_exts (ExtTuple t) →
  path_exists os dir = true →
  listdir os dir = Some entries →
  Forall (λ s, is_ascii s = true) t →
  Forall (λ s, is_ascii s = true) entries →
  ∃ found,
    _get_filenames os self dir = Some found
    ∧ found = List.filter (λ f, existsb (caseless_endswith f) t) entries
    ∧ ∀ f, f ∈ found
        ↔ f ∈ entries
          ∧ ∃ ext stem suffix,
              ext ∈ t ∧ f = stem +:+ suffix
              ∧ caseless_eq suffix ext = true.
Proof.
  intros He Hex Hls _ _. eexists.
  split; [by apply get_filenames_exists|].
  rewrite He. cbn [lower_exts].
  rewrite (List.filter_ext _ (λ f, existsb (caseless_endswith f) t))
    by (intros f; apply endswith_any_caseless).
  split; [done|]. intros f.
  rewrite list_elem_of_In, filter_In, <- list_elem_of_In, existsb_exists.
  split.
  - intros (Hin & ext & Hext & (stem & suffix & Hf & Hs)%caseless_endswith_iff).
    split; [done|]. exists ext, stem, suffix. by rewrite list_elem_of_In.
  - intros (Hin & ext & stem & suffix & Hext & Hf & Hs). split; [done|].
    exists ext. rewrite <- list_elem_of_In. split; [done|].
    apply caseless_endswith_iff. by exists stem, suffix.
Qed.

Lemma tuple_exts_scan_witness :
  ∃ found,
    _get_filenames (table_os sky_fs) sky_ds "/data/cirrus" = Some found
    ∧ found = ["a.jpg"; "B.JPG"]
    ∧ ∀ f, f ∈ found
        ↔ f ∈ ["a.jpg"; "B.JPG"; "notes.png"; "test"]
          ∧ ∃ ext stem suffix,
              ext ∈ [".Jpg"] ∧ f = stem +:+ suffix
              ∧ caseless_eq suffix ext = true.
Proof.
  destruct (tuple_exts_scan (table_os sky_fs) [".Jpg"] sky_ds "/data/cirrus"
              ["a.jpg"; "B.JPG"; "notes.png"; "test"]
              eq_refl eq_refl eq_refl) as (found & H1 & H2 & H3).
  - by repeat constructor.
  - by repeat constructor.
  - exists found. split; [exact H1|]. split; [exact H2 | exact H3].
Defined.

Lemma lower_app (a b : string) :
  Str.lower (a +:+ b) = Str.lower a +:+ Str.lower b.
Proof.
  induction a as [|x a IH]; [done|].
  change (Str.lower (String x (a +:+ b))
          = String (Str.ascii_lower x) (Str.lower a +:+ Str.lower b)).
  cbn [Str.lower]. by rewrite IH.
Qed.

Lemma elem_of_chars (s x : string) :
  x ∈ Str.chars s
  ↔ ∃ a, a ∈ list_ascii_of_string s ∧ x = String a EmptyString.
Proof.
  induction s as [|c s IH]; cbn [Str.chars list_ascii_of_string].
  - split; [by intros ?%elem_of_nil | by intros (a & ?%elem_of_nil & _)].
  - rewrite elem_of_cons, IH. split.
    + intros [->|(a & Ha & ->)].
      * exists c. split; [apply list_elem_of_here | done].
      * exists a. split; [by apply list_elem_of_further | done].
    + intros (a & [->|Ha]%elem_of_cons & ->); [by left|].
      right. by exists a.
Qed.

Lemma string_last (s : string) :
  s ≠ EmptyString →
  ∃ s0 a, s = s0 +:+ String a EmptyString ∧ a ∈ list_ascii_of_string s.
Proof.
  induction s as [|c s IH]; [done|]. intros _.
  destruct s as [|c' s'].
  - exists EmptyString, c. split; [done | apply list_elem_of_here].
  - destruct IH as (s0 & a & Hs & Ha); [done|].
    exists (String c s0), a. split.
    + change (String c (String c' s') = String c (s0 +:+ String a EmptyString)).
      by rewrite Hs.
    + cbn [list_ascii_of_string] in *. by apply list_elem_of_further.
Qed.

(** The acceptance test for a string given for [exts], in terms of
    [Str.lower]. *)
Lemma string_exts_lower (s f : string) :
  (Str.endswith_any (Str.lower f) (lower_exts (ExtStr s)) = true
   ↔ ∃ a stem, a ∈ list_ascii_of_string s
       ∧ Str.lower f = stem +:+ String (Str.ascii_lower a) EmptyString)
  ∧ (s ≠ EmptyString →
     Str.endswith_any (Str.lower f) (lower_exts (ExtTuple [s])) = true →
     Str.endswith_any (Str.lower f) (lower_exts (ExtStr s)) = true).
Proof.
  assert (Hiff :
            Str.endswith_any (Str.lower f) (lower_exts (ExtStr s)) = true
            ↔ ∃ a stem, a ∈ list_ascii_of_string s
                ∧ Str.lower f
                  = stem +:+ String (Str.ascii_lower a) EmptyString).
  { rewrite endswith_any_iff. cbn [lower_exts]. split.
    - intros (ext & stem & (x & -> & Hx)%list_elem_of_fmap & Hf).
      apply elem_of_chars in Hx as (a & Ha & ->).
      by exists a, stem.
    - intros (a & stem & Ha & Hf).
      exists (Str.lower (String a EmptyString)), stem. split; [|done].
      apply list_elem_of_fmap. exists (String a EmptyString).
      split; [done|]. apply elem_of_chars. by exists a. }
  split; [exact Hiff|].
  intros Hs (ext & stem & Hext & Hf)%endswith_any_iff.
  cbn [lower_exts] in Hext. rewrite list_fmap_singleton in Hext.
  apply list_elem_of_singleton in Hext as ->.
  destruct (string_last s Hs) as (s0 & a & Hs0 & Ha).
  apply Hiff. exists a, (stem +:+ Str.lower s0). split; [done|].
  rewrite Hf, Hs0 at 1. by rewrite lower_app, str_app_assoc.
Qed.

(** A string given for [exts] is taken character by character. For ASCII
    strings, a file name is accepted exactly when its last character is,
    up to the case of a letter, one of the characters of the string; and
    every name that the one-member tuple of a non-empty string accepts is
    accepted by the string itself. *)
Theorem string_exts_by_character (s f : string) :
  is_ascii s = true →
  is_ascii f = true →
  (Str.endswith_any (Str.lower f) (lower_exts (ExtStr s)) = true
   ↔ ∃ a stem b, a ∈ list_ascii_of_string s
       ∧ f = stem +:+ String b EmptyString
       ∧ same_letter b a = true)
  ∧ (s ≠ EmptyString →
     Str.endswith_any (Str.lower f) (lower_exts (ExtTuple [s])) = true →
     Str.endswith_any (Str.lower f) (lower_exts (ExtStr s)) = true).
Proof.
  intros _ _. split; [|apply string_exts_lower].
  cbn [lower_exts]. rewrite endswith_any_caseless, existsb_exists. split.
  - intros (x & (a & Ha & ->)%list_elem_of_In%elem_of_chars & Hend).
    apply caseless_endswith_iff in Hend as (stem & suffix & -> & Hs).
    destruct suffix as [|b [|? ?]]; cbn [caseless_eq] in Hs;
      [done | | by rewrite andb_false_r in Hs].
    rewrite andb_true_r in Hs. by exists a, stem, b.
  - intros (a & stem & b & Ha & -> & Hs).
    exists (String a EmptyString). split.
    + apply list_elem_of_In, elem_of_chars. by exists a.
    + apply caseless_endswith_iff. exists stem, (String b EmptyString).
      split; [done|]. cbn [caseless_eq]. by rewrite Hs.
Qed.

Lemma string_exts_by_character_witness :
  Str.endswith_any (Str.lower "notes.PNG") (lower_exts (ExtStr ".jpg")) = true.
Proof.
  apply (proj1 (string_exts_by_character ".jpg" "notes.PNG"
                  eq_refl eq_refl)).
  exists "g"%char, "notes.PN", "G"%char.
  split; [|split; reflexivity].
  do 3 apply list_elem_of_further. apply list_elem_of_here.
Defined.

(** ** Distinct paths *)

Lemma slash_split_inj (n1 n2 r1 r2 : string) :
  has_slash n1 = false →
  has_slash n2 = false →
  n1 +:+ "/" +:+ r1 = n2 +:+ "/" +:+ r2 →
  n1 = n2 ∧ r1 = r2.
Proof.
  revert n2. induction n1 as [|c n1 IH]; intros [|c2 n2] H1 H2 Heq.
  - change (String "/" r1 = String "/" r2) in Heq. by injection Heq as ->.
  - change (String "/" r1 = String c2 (n2 +:+ "/" +:+ r2)) in Heq.
    injection Heq as <- _. cbn [has_slash] in H2.
    by rewrite Ascii.eqb_refl in H2.
  - change (String c (n1 +:+ "/" +:+ r1) = String "/" r2) in Heq.
    injection Heq as -> _. cbn [has_slash] in H1.
    by rewrite Ascii.eqb_refl in H1.
  - change (String c (n1 +:+ "/" +:+ r1) = String c2 (n2 +:+ "/" +:+ r2))
      in Heq.
    injection Heq as -> Heq. cbn [has_slash] in H1, H2.
    apply orb_false_iff in H1 as [_ H1]. apply orb_false_iff in H2 as [_ H2].
    by destruct (IH n2 H1 H2 Heq) as [-> ->].
Qed.

Lemma entry_name_no_slash (s : string) :
  entry_name s = true → has_slash s = false.
Proof.
  unfold entry_name. intros [_ H]%andb_true_iff. by apply negb_true_iff.
Qed.

Lemma NoDup_records (k : Z) (ls : list (list string)) :
  Forall NoDup ls → NoDup (records k ls).
Proof.
  intros Hls. revert k. induction Hls as [|l ls Hl _ IH]; intros k.
  - constructor.
  - cbn [records]. apply NoDup_app. split; [|split].
    + apply NoDup_fmap_2; [|done]. by intros f g [= ->].
    + intros p (f & -> & _)%list_elem_of_fmap Hin.
      pose proof (proj1 (Forall_forall _ _) (records_labels (k + 1) ls) _ Hin)
        as Hk.
      simpl in Hk. lia.
    + apply IH.
Qed.

Lemma NoDup_list_filter {A} (f : A → bool) (l : list A) :
  NoDup l → NoDup (List.filter f l).
Proof.
  induction 1 as [|x l Hx _ IH]; simpl; [constructor|].
  destruct (f x); [|done]. constructor; [|done].
  intros Hin%list_elem_of_In%filter_In. apply Hx.
  apply list_elem_of_In. tauto.
Qed.

Lemma NoDup_listed (os : OS) (ds : DataSet) (test : bool) (name : string) :
  distinct_entries os → NoDup (listed os ds test name).
Proof.
  intros Hdist. unfold listed, _get_filenames.
  destruct (path_exists os _); [|constructor].
  destruct (listdir os _) as [entries|] eqn:E; [|constructor].
  simpl. apply NoDup_list_filter. by apply (Hdist _ _ E).
Qed.

(** The path of a record of a constructed data-set, written out. *)
Lemma record_path (os : OS) (d : string) (e : exts_arg) (ds : DataSet)
    (test : bool) (f : string) (c : Z) :
  posix_names os →
  __init__ os d e = Some ds →
  (f, c) ∈ zip (split_filenames ds test) (split_numbers ds test) →
  ∃ (j : nat) name,
    c = Z.of_nat j
    ∧ class_names ds !! j = Some name
    ∧ entry_name name = true
    ∧ entry_name f = true
    ∧ OsPath.join (in_dir ds)
        [default "" (py_getitem (class_names ds) c);
         test_component test; f]
      = dir_prefix (in_dir ds) +:+ name +:+ "/"
        +:+ test_component test +:+ f.
Proof.
  intros Hposix Hinit Hrec.
  destruct (init_spec _ _ _ _ Hinit) as (Hinv & Hd & _ & names & Hls & Hcn).
  apply (inv_record_iff os) in Hrec as (j & name & Hj & -> & Hin); [|done].
  assert (Hname : entry_name name = true).
  { assert (Hmem : name ∈ class_names ds)
      by (apply list_elem_of_lookup; by exists j).
    rewrite Hcn in Hmem.
    apply list_elem_of_In, filter_In in Hmem as [Hn _].
    apply list_elem_of_In in Hn.
    by apply (proj1 (Forall_forall _ _) (Hposix _ _ Hls)). }
  assert (Hf : entry_name f = true).
  { apply elem_of_listed in Hin as (entries & Hle & Hfe & _).
    by apply (proj1 (Forall_forall _ _) (Hposix _ _ Hle)). }
  exists j, name. split; [done|]. split; [done|]. split; [done|].
  split; [done|].
  rewrite py_getitem_nonneg, Nat2Z.id, Hj by lia. simpl default.
  apply join_path; [done | by apply entry_name_startswith].
Qed.

(** On a file system whose listings hold POSIX names and no name twice, a
    constructed data-set yields no path twice: the paths of the training
    and of the test split are pairwise distinct. *)
Theorem paths_distinct (os : OS) (d : string) (e : exts_arg)
    (ds : DataSet) :
  posix_names os →
  distinct_entries os →
  __init__ os d e = Some ds →
  ∃ train test,
    py_list (get_paths ds false) = Some train
    ∧ py_list (get_paths ds true) = Some test
    ∧ NoDup (train ++ test).
Proof.
  intros Hposix Hdist Hinit.
  destruct (init_spec _ _ _ _ Hinit) as (Hinv & Hd & _ & names & Hls & Hcn).
  pose proof Hinv as [Hn Hsplit].
  assert (Hr : ∀ test,
            Forall (λ c, 0 ≤ c < Z.of_nat (length (class_names ds)))
              (split_numbers ds test)).
  { intros test. rewrite <- Hn. by apply (inv_numbers_range os). }
  assert (Hclasses : NoDup (class_names ds)).
  { rewrite Hcn. apply NoDup_list_filter. by apply (Hdist _ _ Hls). }
  assert (Hrecs : ∀ test,
            NoDup (zip (split_filenames ds test) (split_numbers ds test))).
  { intros test. destruct (Hsplit test) as [_ ->]. apply NoDup_records.
    apply Forall_fmap, Forall_forall. intros name _.
    by apply NoDup_listed. }
  eexists _, _. rewrite !get_paths_list by done.
  split; [reflexivity|]. split; [reflexivity|].
  apply NoDup_app. split; [|split].
  - apply NoDup_fmap_2_strong; [|apply Hrecs].
    intros [f1 c1] [f2 c2] H1 H2 Heq.
    destruct (record_path os d e ds false f1 c1 Hposix Hinit H1)
      as (j1 & n1 & -> & Hj1 & Hn1 & Hf1 & E1).
    destruct (record_path os d e ds false f2 c2 Hposix Hinit H2)
      as (j2 & n2 & -> & Hj2 & Hn2 & Hf2 & E2).
    rewrite E1, E2 in Heq. apply (inj (String.app _)) in Heq.
    apply slash_split_inj in Heq as [-> Heq];
      [|by apply entry_name_no_slash..].
    apply (inj (String.app _)) in Heq. subst f2. f_equal. f_equal.
    by apply (NoDup_lookup (class_names ds) j1 j2 n2).
  - intros p ([f1 c1] & -> & H1)%list_elem_of_fmap
             ([f2 c2] & Heq & H2)%list_elem_of_fmap.
    destruct (record_path os d e ds false f1 c1 Hposix Hinit H1)
      as (j1 & n1 & -> & Hj1 & Hn1 & Hf1 & E1).
    destruct (record_path os d e ds true f2 c2 Hposix Hinit H2)
      as (j2 & n2 & -> & Hj2 & Hn2 & Hf2 & E2).
    rewrite E1, E2 in Heq. apply (inj (String.app _)) in Heq.
    apply slash_split_inj in Heq as [_ Heq];
      [|by apply entry_name_no_slash..].
    change (f1 = "test/" +:+ f2) in Heq. apply entry_name_no_slash in Hf1.
    rewrite Heq, has_slash_app in Hf1. discriminate Hf1.
  - apply NoDup_fmap_2_strong; [|apply Hrecs].
    intros [f1 c1] [f2 c2] H1 H2 Heq.
    destruct (record_path os d e ds true f1 c1 Hposix Hinit H1)
      as (j1 & n1 & -> & Hj1 & Hn1 & Hf1 & E1).
    destruct (record_path os d e ds true f2 c2 Hposix Hinit H2)
      as (j2 & n2 & -> & Hj2 & Hn2 & Hf2 & E2).
    rewrite E1, E2 in Heq. apply (inj (String.app _)) in Heq.
    apply slash_split_inj in Heq as [-> Heq];
      [|by apply entry_name_no_slash..].
    apply (inj (String.app _)) in Heq. subst f2. f_equal. f_equal.
    by apply (NoDup_lookup (class_names ds) j1 j2 n2).
Qed.

Lemma table_distinct_entries (t : table) :
  Forall (λ e, NoDup e.2) t → distinct_entries (table_os t).
Proof.
  intros Hall dir entries Hls. simpl in Hls. unfold table_listdir in Hls.
  destruct (List.find _ t) as [e|] eqn:E; [|done].
  injection Hls as <-. apply find_some in E as [Hin _].
  apply list_elem_of_In in Hin.
  by apply (proj1 (Forall_forall _ _) Hall).
Qed.

Lemma paths_distinct_witness :
  NoDup ["/data/cirrus/a.jpg"; "/data/cirrus/B.JPG"; "/data/cumulus/c.jpg";
         "/data/cirrus/test/t.jpg"].
Proof.
  destruct (paths_distinct (table_os sky_fs) "/data" (ExtTuple [".jpg"])
              sky_ds) as (train & test & H1 & H2 & Hnd).
  - by apply table_posix_names.
  - apply table_distinct_entries. apply (bool_decide_unpack _).
    by vm_compute.
  - reflexivity.
  - injection H1 as <-. injection H2 as <-. exact Hnd.
Defined.

(** ** [get_paths] on any [DataSet] object *)

(** Whatever the fields of the object hold, [get_paths] yields one element
    for every pair of [zip(filenames, class_numbers)], and turning it into
    a list raises exactly when some paired class number is outside
    [-len(class_names), len(class_names)). *)
Theorem get_paths_raises_iff (self : DataSet) (test : bool) :
  length (get_paths self test)
  = Nat.min (length (split_filenames self test))
      (length (split_numbers self test))
  ∧ (py_list (get_paths self test) = None
     ↔ ∃ (i : nat) f c,
         split_filenames self test !! i = Some f
         ∧ split_numbers self test !! i = Some c
         ∧ (c < - Z.of_nat (length (class_names self))
            ∨ Z.of_nat (length (class_names self)) ≤ c)).
Proof.
  rewrite get_paths_unfold. split; [by rewrite length_fmap, length_zip|].
  unfold py_list. rewrite mapM_None, Exists_exists. split.
  - intros (x & ([f c] & -> & Hfc)%list_elem_of_fmap & Hnone).
    apply list_elem_of_lookup in Hfc as [i Hi].
    apply lookup_zip_Some in Hi as [Hf Hc].
    exists i, f, c. split; [done|]. split; [done|].
    apply py_getitem_None. simpl in Hnone.
    by destruct (py_getitem (class_names self) c).
  - intros (i & f & c & Hf & Hc & Hout). eexists. split.
    + apply list_elem_of_fmap. exists (f, c). split; [reflexivity|].
      apply list_elem_of_lookup. exists i. by apply lookup_zip_Some.
    + simpl. by rewrite (proj2 (py_getitem_None (class_names self) c) Hout).
Qed.

(** ** The export: where the copies go *)

Lemma export_completes_witness :
  (Exporter.copy_files (unreadable []) sky_ds "/out/train/" "/out/test/"
     blank_disk).1 = inr ()
  ∧ Exporter.copies
      (Exporter.log
         (Exporter.copy_files (unreadable []) sky_ds "/out/train/"
            "/out/test/" blank_disk).2)
    = [("/data/cirrus/a.jpg", "/out/train/cirrus/");
       ("/data/cirrus/B.JPG", "/out/train/cirrus/");
       ("/data/cumulus/c.jpg", "/out/train/cumulus/");
       ("/data/cirrus/test/t.jpg", "/out/test/cirrus/")].
Proof.
  apply (export_completes (table_os sky_fs) "/data" (ExtTuple [".jpg"])
           sky_ds (unreadable []) "/out/train/" "/out/test/" blank_disk).
  - reflexivity.
  - reflexivity.
  - by repeat constructor.
Defined.

Lemma startswith_app_nonempty (a b : string) :
  a ≠ EmptyString →
  Str.startswith (a +:+ b) "/" = Str.startswith a "/".
Proof.
  assert (Hnil : ∀ s, Str.startswith s EmptyString = true) by by intros [].
  destruct a as [|c a]; [done|]. intros _.
  change (String c a +:+ b) with (String c (a +:+ b)).
  cbn [Str.startswith]. by rewrite !Hnil.
Qed.

(** The destination of the copies of a class. *)
Lemma class_dir_path (ds : DataSet) (dst_dir : string) (j : nat)
    (name : string) :
  class_names ds !! j = Some name →
  entry_name name = true →
  py_getitem (Exporter.class_dirs ds dst_dir) (Z.of_nat j)
  = Some (dir_prefix dst_dir +:+ name +:+ "/").
Proof.
  intros Hj Hname. rewrite py_getitem_nonneg, Nat2Z.id by lia.
  unfold Exporter.class_dirs. rewrite list_lookup_fmap, Hj. simpl. f_equal.
  apply join2_root.
  rewrite startswith_app_nonempty by by apply entry_name_nonempty.
  by apply entry_name_startswith.
Qed.

(** When the export completes, every copy it has made takes a file from
    the directory of its class (from [test/] there, for the test split)
    into the directory of the same class below the destination of its
    split. *)
Theorem export_layout (os : OS) (d : string) (e : exts_arg) (ds : DataSet)
    (env : Exporter.Env) (train_dir test_dir : string)
    (w : Exporter.World) (src dst : string) :
  posix_names os →
  __init__ os d e = Some ds →
  (∀ dir, Exporter.makedirs_ok env dir = true) →
  Forall (λ p, Exporter.copy_ok env p.1 p.2 = true)
    (export_plan ds train_dir test_dir) →
  (src, dst) ∈ Exporter.copies
                 (Exporter.log
                    (Exporter.copy_files env ds train_dir test_dir w).2) →
  (src, dst) ∈ Exporter.copies (Exporter.log w)
  ∨ ∃ test f c name,
      (f, c) ∈ zip (split_filenames ds test) (split_numbers ds test)
      ∧ py_getitem (class_names ds) c = Some name
      ∧ src = dir_prefix (in_dir ds) +:+ name +:+ "/"
              +:+ test_component test +:+ f
      ∧ dst = dir_prefix (if test then test_dir else train_dir)
              +:+ name +:+ "/".
Proof.
  intros Hposix Hinit Hok Hall Hin.
  destruct (init_spec _ _ _ _ Hinit) as (Hinv & _).
  pose proof Hinv as [Hn _].
  destruct (copy_files_run env ds train_dir test_dir w) as (w' & Hrun & Hc);
    [|done|].
  { intros test. rewrite <- Hn. by apply (inv_numbers_range os). }
  rewrite (run_plan_all_ok env _ Hall) in Hrun, Hc.
  rewrite Hrun in Hin. simpl in Hin, Hc. rewrite Hc in Hin.
  apply elem_of_app in Hin as [Hin|Hin]; [by left|]. right.
  assert (Hplan : ∀ test dst_dir, (src, dst) ∈ plan ds test dst_dir →
            ∃ f c name,
              (f, c) ∈ zip (split_filenames ds test) (split_numbers ds test)
              ∧ py_getitem (class_names ds) c = Some name
              ∧ src = dir_prefix (in_dir ds) +:+ name +:+ "/"
                      +:+ test_component test +:+ f
              ∧ dst = dir_prefix dst_dir +:+ name +:+ "/").
  { intros test dst_dir ([f c] & [= -> ->] & Hrec)%list_elem_of_fmap.
    destruct (record_path os d e ds test f c Hposix Hinit Hrec)
      as (j & name & -> & Hj & Hname & _ & Hpath).
    exists f, (Z.of_nat j), name. split; [done|].
    rewrite (class_dir_path ds dst_dir j name Hj Hname).
    split; [|split; [exact Hpath | done]].
    by rewrite py_getitem_nonneg, Nat2Z.id by lia. }
  unfold export_plan in Hin. apply elem_of_app in Hin as [Hin|Hin].
  - destruct (Hplan false train_dir Hin) as (f & c & name & H).
    by exists false, f, c, name.
  - destruct (Hplan true test_dir Hin) as (f & c & name & H).
    by exists true, f, c, name.
Qed.

Lemma export_layout_witness :
  ("/data/cirrus/test/t.jpg", "/out/test/cirrus/")
    ∈ Exporter.copies (Exporter.log blank_disk)
  ∨ ∃ test f c name,
      (f, c) ∈ zip (split_filenames sky_ds test) (split_numbers sky_ds test)
      ∧ py_getitem (class_names sky_ds) c = Some name
      ∧ "/data/cirrus/test/t.jpg"
        = dir_prefix (in_dir sky_ds) +:+ name +:+ "/"
          +:+ test_component test +:+ f
      ∧ "/out/test/cirrus/"
        = dir_prefix (if test then "/out/test/" else "/out/train/")
          +:+ name +:+ "/".
Proof.
  apply (export_layout (table_os sky_fs) "/data" (ExtTuple [".jpg"]) sky_ds
           (unreadable []) "/out/train/" "/out/test/" blank_disk).
  - by apply table_posix_names.
  - reflexivity.
  - reflexivity.
  - by repeat constructor.
  - do 3 apply list_elem_of_further. apply list_elem_of_here.
Defined.

(** ** The export: directories *)

Section export_dirs.

Import Exporter.

Variable env : Env.

Lemma makedirs_calls_snoc_copy (l : list event) (src dst : string) :
  makedirs_calls (l ++ [Copy src dst]) = makedirs_calls l.
Proof.
  unfold makedirs_calls. rewrite omap_app. simpl. by rewrite app_nil_r.
Qed.

Lemma makedirs_calls_snoc_print (l : list event) (msg : string) :
  makedirs_calls (l ++ [Print msg]) = makedirs_calls l.
Proof.
  unfold makedirs_calls. rewrite omap_app. simpl. by rewrite app_nil_r.
Qed.

(** The first loop of [_copy_files], whatever [os.makedirs] does: what
    exists stays, no copy is made, and when the loop ends every directory
    of the list exists. *)
Lemma makedirs_loop_spec (dirs : list string) (w : World) :
  ∃ r w', for_each dirs (λ dir,
            present <- path_exists dir ;;
            if negb present then makedirs env dir else ret ())%io w
          = (r, w')
    ∧ (∀ p, exists_now w p = true → exists_now w' p = true)
    ∧ copies (log w') = copies (log w)
    ∧ (r = inr () → ∀ dir, dir ∈ dirs → exists_now w' dir = true).
Proof.
  revert w. induction dirs as [|dir dirs IH]; intros w.
  - exists (inr ()), w. split; [done|]. split; [done|]. split; [done|].
    by intros _ dir ?%elem_of_nil.
  - cbn [for_each]. unfold bind at 1. unfold bind at 1.
    unfold path_exists at 1. destruct (exists_now w dir) eqn:Hex; cbn [negb].
    + unfold ret at 1. destruct (IH w) as (r & w' & -> & Hmono & Hc & Hall).
      exists r, w'. split; [done|]. split; [done|]. split; [done|].
      intros Hr dir' [->|Hin]%elem_of_cons; [by apply Hmono | by apply Hall].
    + unfold makedirs, bind, emit. destruct (makedirs_ok env dir).
      * edestruct IH as (r & w' & -> & Hmono & Hc & Hall).
        exists r, w'. split; [reflexivity|]. simpl in Hmono, Hc.
        split; [|split].
        -- intros p Hp. apply Hmono. by rewrite Hp, orb_true_r.
        -- by rewrite Hc, copies_snoc_makedirs.
        -- intros Hr dir' [->|Hin]%elem_of_cons; [|by apply Hall].
           apply Hmono. by rewrite String.eqb_refl.
      * eexists _, _. split; [reflexivity|]. simpl.
        split; [done|]. split; [apply copies_snoc_makedirs | done].
Qed.

(** Where every directory of the list exists, the loop does nothing. *)
Lemma makedirs_loop_present (dirs : list string) (w : World) :
  (∀ dir, dir ∈ dirs → exists_now w dir = true) →
  for_each dirs (λ dir,
    present <- path_exists dir ;;
    if negb present then makedirs env dir else ret ())%io w
  = (inr (), w).
Proof.
  induction dirs as [|dir dirs IH]; intros Hall; [done|].
  cbn [for_each]. unfold bind at 1. unfold bind at 1.
  unfold path_exists at 1. rewrite (Hall dir) by apply list_elem_of_here.
  cbn [negb]. unfold ret at 1. apply IH.
  intros dir' Hin. apply Hall. by apply list_elem_of_further.
Qed.

(** The loop stops at the first directory that is missing and cannot be
    created. *)
Lemma makedirs_loop_fails (before after : list string) (dir : string)
    (w : World) :
  Forall (λ b, exists_now w b = true ∨ makedirs_ok env b = true) before →
  dir ∉ before →
  exists_now w dir = false →
  makedirs_ok env dir = false →
  ∃ w', for_each (before ++ dir :: after) (λ dir,
          present <- path_exists dir ;;
          if negb present then makedirs env dir else ret ())%io w
        = (inl (MakedirsFailed dir), w')
    ∧ copies (log w') = copies (log w).
Proof.
  intros Hbefore. revert w Hbefore.
  induction before as [|b before IH]; intros w Hbefore Hnotin Hex Hbad.
  - cbn [app for_each]. unfold bind at 1. unfold bind at 1.
    unfold path_exists at 1. rewrite Hex. cbn [negb].
    unfold makedirs, bind, emit. rewrite Hbad.
    eexists. split; [reflexivity|]. simpl. apply copies_snoc_makedirs.
  - apply Forall_cons in Hbefore as [Hb Hbefore].
    apply not_elem_of_cons in Hnotin as [Hne Hnotin].
    cbn [app for_each]. fold (@app string).
    unfold bind at 1. unfold bind at 1. unfold path_exists at 1.
    destruct (exists_now w b) eqn:Hexb; cbn [negb].
    + unfold ret at 1. by apply IH.
    + destruct Hb as [?|Hb]; [done|].
      unfold makedirs at 1. unfold bind at 1. unfold emit at 1.
      rewrite Hb.
      edestruct (IH {| exists_now := λ p, String.eqb p b || exists_now w p;
                       log := log w ++ [Makedirs b] |})
        as (w' & Hrun & Hc).
      * eapply Forall_impl; [exact Hbefore|]. intros x [Hx|Hx]; simpl.
        -- left. by rewrite Hx, orb_true_r.
        -- by right.
      * done.
      * simpl. rewrite Hex, orb_false_r. by apply String.eqb_neq.
      * done.
      * exists w'. split; [exact Hrun|]. rewrite Hc. simpl.
        apply copies_snoc_makedirs.
Qed.

(** The second loop of [_copy_files] creates nothing. *)
Lemma copy_loop_world (dirs : list string)
    (items : list (option string * Z)) (w : World) :
  ∃ r w', for_each items (λ '(src_gen, cls),
            src <- index src_gen ;;
            dst <- index (py_getitem dirs cls) ;;
            copy env src dst)%io w
          = (r, w')
    ∧ exists_now w' = exists_now w
    ∧ makedirs_calls (log w') = makedirs_calls (log w).
Proof.
  revert w. induction items as [|[g c] items IH]; intros w.
  - by exists (inr ()), w.
  - cbn [for_each]. unfold bind at 1. unfold bind at 1.
    destruct g as [src|]; unfold index at 1;
      [|by exists (inl IndexError), w].
    unfold ret at 1. unfold bind at 1.
    destruct (py_getitem dirs c) as [dst|]; unfold index at 1;
      [|by exists (inl IndexError), w].
    unfold ret at 1. unfold copy, bind, emit.
    destruct (copy_ok env src dst).
    + unfold ret at 1. edestruct IH as (r & w' & -> & Hex & Hm).
      exists r, w'. split; [reflexivity|]. split; [done|].
      rewrite Hm. simpl. apply makedirs_calls_snoc_copy.
    + eexists _, _. split; [reflexivity|]. split; [done|]. simpl.
      apply makedirs_calls_snoc_copy.
Qed.

End export_dirs.

(** A class directory that is missing and cannot be created ends the
    export before any file is copied: the exception of [os.makedirs]
    leaves [copy_files]. *)
Theorem makedirs_failure_stops_export (env : Exporter.Env) (ds : DataSet)
    (train_dir test_dir : string) (w : Exporter.World)
    (before after : list string) (dir : string) :
  Exporter.class_dirs ds train_dir = before ++ dir :: after →
  Forall (λ b, Exporter.exists_now w b = true
               ∨ Exporter.makedirs_ok env b = true) before →
  dir ∉ before →
  Exporter.exists_now w dir = false →
  Exporter.makedirs_ok env dir = false →
  (Exporter.copy_files env ds train_dir test_dir w).1
  = inl (Exporter.MakedirsFailed dir)
  ∧ Exporter.copies
      (Exporter.log (Exporter.copy_files env ds train_dir test_dir w).2)
    = Exporter.copies (Exporter.log w).
Proof.
  intros Hdirs Hbefore Hnotin Hex Hbad.
  assert (Hrun : ∃ w',
            Exporter.copy_files env ds train_dir test_dir w
            = (inl (Exporter.MakedirsFailed dir), w')
            ∧ Exporter.copies (Exporter.log w')
              = Exporter.copies (Exporter.log w)).
  { unfold Exporter.copy_files. unfold Exporter.bind at 1.
    unfold Exporter._copy_files. unfold Exporter.bind at 1.
    rewrite Hdirs.
    destruct (makedirs_loop_fails env before after dir w Hbefore Hnotin
                Hex Hbad) as (w' & -> & Hc).
    by exists w'. }
  by destruct Hrun as (w' & -> & Hc).
Qed.

Lemma makedirs_failure_stops_export_witness :
  (Exporter.copy_files (uncreatable ["/out/train/cumulus/"]) sky_ds
     "/out/train/" "/out/test/" blank_disk).1
  = inl (Exporter.MakedirsFailed "/out/train/cumulus/")
  ∧ Exporter.copies
      (Exporter.log
         (Exporter.copy_files (uncreatable ["/out/train/cumulus/"]) sky_ds
            "/out/train/" "/out/test/" blank_disk).2)
    = [].
Proof.
  apply (makedirs_failure_stops_export (uncreatable ["/out/train/cumulus/"])
           sky_ds "/out/train/" "/out/test/" blank_disk
           ["/out/train/cirrus/"] []).
  - reflexivity.
  - apply Forall_cons. split; [by right | constructor].
  - by intros [= ]%list_elem_of_singleton.
  - reflexivity.
  - reflexivity.
Defined.

(** One call of [_copy_files], whatever its arguments and whatever fails:
    what exists stays, and when the call returns the class directories
    exist. *)
Lemma copy_split_dirs (env : Exporter.Env) (ds : DataSet)
    (src_paths : list (option string)) (dst_dir : string)
    (cnumbers : list Z) (w : Exporter.World) :
  ∃ r w', Exporter._copy_files env ds src_paths dst_dir cnumbers w = (r, w')
    ∧ (∀ p, Exporter.exists_now w p = true →
            Exporter.exists_now w' p = true)
    ∧ (r = inr () →
       ∀ dir, dir ∈ Exporter.class_dirs ds dst_dir →
              Exporter.exists_now w' dir = true).
Proof.
  unfold Exporter._copy_files. unfold Exporter.bind at 1.
  destruct (makedirs_loop_spec env (Exporter.class_dirs ds dst_dir) w)
    as (r1 & w1 & -> & Hmono & _ & Hall).
  destruct r1 as [err|[]]; [by exists (inl err), w1|].
  destruct (copy_loop_world env (Exporter.class_dirs ds dst_dir)
              (zip src_paths cnumbers) w1) as (r & w2 & -> & Hex & _).
  exists r, w2. split; [done|]. rewrite Hex. split; [done|].
  intros _. by apply Hall.
Qed.

(** The same call where the class directories exist: it creates nothing,
    whatever the copies come to. *)
Lemma copy_split_no_makedirs (env : Exporter.Env) (ds : DataSet)
    (src_paths : list (option string)) (dst_dir : string)
    (cnumbers : list Z) (w : Exporter.World) :
  (∀ dir, dir ∈ Exporter.class_dirs ds dst_dir →
          Exporter.exists_now w dir = true) →
  ∃ r w', Exporter._copy_files env ds src_paths dst_dir cnumbers w = (r, w')
    ∧ Exporter.exists_now w' = Exporter.exists_now w
    ∧ makedirs_calls (Exporter.log w') = makedirs_calls (Exporter.log w).
Proof.
  intros Hdirs. unfold Exporter._copy_files. unfold Exporter.bind at 1.
  rewrite makedirs_loop_present by done.
  apply copy_loop_world.
Qed.

(** After an export that returned, every class directory exists below both
    destinations, for the classes without files too, and a second export
    from that state calls [os.makedirs] for nothing, whichever of its
    copies succeed or fail then. *)
Theorem export_twice (ds : DataSet) (env env2 : Exporter.Env)
    (train_dir test_dir : string) (w w1 : Exporter.World) :
  Exporter.copy_files env ds train_dir test_dir w = (inr (), w1) →
  (∀ dir, dir ∈ Exporter.class_dirs ds train_dir
                  ++ Exporter.class_dirs ds test_dir →
          Exporter.exists_now w1 dir = true)
  ∧ makedirs_calls
      (Exporter.log (Exporter.copy_files env2 ds train_dir test_dir w1).2)
    = makedirs_calls (Exporter.log w1).
Proof.
  intros Hfirst.
  unfold Exporter.copy_files in Hfirst. unfold Exporter.bind at 1 in Hfirst.
  destruct (copy_split_dirs env ds (get_paths ds false) train_dir
              (class_numbers ds) w) as (ra & wa & Hrun_a & _ & Hret_a).
  rewrite Hrun_a in Hfirst. destruct ra as [err|[]]; [done|].
  unfold Exporter.bind at 1 in Hfirst.
  unfold Exporter.print at 1, Exporter.emit at 1 in Hfirst.
  unfold Exporter.bind at 1 in Hfirst.
  set (wb := {| Exporter.exists_now := Exporter.exists_now wa;
                Exporter.log := Exporter.log wa ++ [_] |}) in Hfirst.
  destruct (copy_split_dirs env ds (get_paths ds true) test_dir
              (class_numbers_test ds) wb)
    as (rc & wc & Hrun_c & Hmono_c & Hret_c).
  rewrite Hrun_c in Hfirst. destruct rc as [err|[]]; [done|].
  unfold Exporter.print, Exporter.emit in Hfirst. injection Hfirst as <-.
  assert (Htrain : ∀ dir, dir ∈ Exporter.class_dirs ds train_dir →
            Exporter.exists_now wc dir = true).
  { intros dir Hdir. apply Hmono_c. simpl. by apply Hret_a. }
  assert (Htest : ∀ dir, dir ∈ Exporter.class_dirs ds test_dir →
            Exporter.exists_now wc dir = true) by by apply Hret_c.
  split.
  { intros dir [Hdir|Hdir]%elem_of_app; simpl; [by apply Htrain|].
    by apply Htest. }
  set (w1 := {| Exporter.exists_now := Exporter.exists_now wc;
                Exporter.log := Exporter.log wc ++ [_] |}).
  assert (Hsecond : ∃ r w5,
            Exporter.copy_files env2 ds train_dir test_dir w1 = (r, w5)
            ∧ makedirs_calls (Exporter.log w5)
              = makedirs_calls (Exporter.log w1)).
  { unfold Exporter.copy_files. unfold Exporter.bind at 1.
    destruct (copy_split_no_makedirs env2 ds (get_paths ds false) train_dir
                (class_numbers ds) w1 Htrain)
      as (r2 & w2 & -> & Hex2 & Hm2).
    destruct r2 as [err|[]]; [by exists (inl err), w2|].
    unfold Exporter.bind at 1.
    unfold Exporter.print at 1, Exporter.emit at 1.
    unfold Exporter.bind at 1.
    set (w3 := {| Exporter.exists_now := Exporter.exists_now w2;
                  Exporter.log := Exporter.log w2 ++ [_] |}).
    destruct (copy_split_no_makedirs env2 ds (get_paths ds true) test_dir
                (class_numbers_test ds) w3)
      as (r4 & w4 & -> & Hex4 & Hm4).
    { simpl. rewrite Hex2. exact Htest. }
    simpl in Hm4. rewrite makedirs_calls_snoc_print, Hm2 in Hm4.
    destruct r4 as [err|[]]; [by exists (inl err), w4|].
    unfold Exporter.print, Exporter.emit.
    eexists _, _. split; [reflexivity|]. simpl.
    by rewrite makedirs_calls_snoc_print. }
  by destruct Hsecond as (r & w5 & -> & Hm).
Qed.

Lemma export_twice_witness :
  Exporter.exists_now exported_disk "/out/test/cumulus/" = true
  ∧ (Exporter.copy_files (unreadable ["/data/cirrus/a.jpg"]) sky_ds
       "/out/train/" "/out/test/" exported_disk).1
    = inl (Exporter.CopyFailed "/data/cirrus/a.jpg" "/out/train/cirrus/")
  ∧ makedirs_calls
      (Exporter.log
         (Exporter.copy_files (unreadable ["/data/cirrus/a.jpg"]) sky_ds
            "/out/train/" "/out/test/" exported_disk).2)
    = ["/out/train/cirrus/"; "/out/train/cumulus/";
       "/out/test/cirrus/"; "/out/test/cumulus/"].
Proof.
  destruct (export_twice sky_ds (unreadable [])
              (unreadable ["/data/cirrus/a.jpg"]) "/out/train/" "/out/test/"
              blank_disk exported_disk eq_refl) as (Hdirs & Hm).
  split; [|split; [reflexivity | exact Hm]].
  apply Hdirs. do 3 apply list_elem_of_further. apply list_elem_of_here.
Defined.
